(** * my_agent/agent.py: the test-report utilities and the [write_report] tool

    A shallow embedding of the report pipeline of [src/my_agent/agent.py]
    ([repo_root], [generate_test_suites_file], [read_latest_report_summary],
    [ensure_reports_dir], [write_report]) together with the parts of the
    Python runtime these functions call: [json.loads], [dict.get],
    truthiness, [str()] formatting, [os.path.join] and the file operations.

    Conventions.
    - A Python [str] is a list of Unicode code points ([pystr]); slicing and
      lengths therefore count characters, as Python does.
    - The file system maps path names to regular files (text content and a
      modification time) and records which path names are directories.
    - Every file operation may fail with an [OSError] chosen by the
      environment ([fault]); besides that it fails where the state of the
      file system demands it (a directory opened as a file, ...).
    - A path name is the text the system is given: two different names are
      two different files (no links, no normalisation, no current
      directory to resolve a relative name against).
    - Python exceptions are values of [exn]; effectful code lives in the
      monad [M], which threads the file system and propagates exceptions.
    - The interpreter's resources (recursion depth, memory) are unbounded. *)

From Stdlib Require Import ZArith NArith Ascii String List Bool Lia.
From stdpp Require Import base option list gmap.

Set Warnings "-register-all".
Open Scope N_scope.

(** ** Text *)

(** A Python [str]: the sequence of its code points. *)
Abbreviation pystr := (list N).

(** An ASCII literal of the source as a [pystr]. *)
Definition u (s : string) : pystr := map N_of_ascii (list_ascii_of_string s).

(** The three non-ASCII characters of the report markup and the line feed. *)
Definition EM_DASH : N := 8212.    (* U+2014 *)
Definition CHECK_MARK : N := 10003. (* U+2713 *)
Definition BALLOT_X : N := 10007.   (* U+2717 *)
Definition LF : N := 10.

(** [s.startswith(p)], returning what follows the prefix. *)
Fixpoint strip_prefix (p s : pystr) : option pystr :=
  match p, s with
  | [], _ => Some s
  | a :: p', b :: s' => if a =? b then strip_prefix p' s' else None
  | _ :: _, [] => None
  end.

Definition startswith (s p : pystr) : bool :=
  match strip_prefix p s with Some _ => true | None => false end.

Definition endswith (s p : pystr) : bool := startswith (rev s) (rev p).

(** Decimal digits. *)
Definition is_digit (c : N) : bool := (48 <=? c) && (c <=? 57).

Definition digit_val (c : N) : Z := Z.of_N (c - 48).

(** [str(n)] for a natural number, most significant digit first; the fuel
    bounds the number of digits. *)
Fixpoint digits_of (fuel : nat) (n : N) (acc : pystr) : pystr :=
  match fuel with
  | O => acc
  | S f =>
      let acc' := (48 + n mod 10) :: acc in
      if n / 10 =? 0 then acc' else digits_of f (n / 10) acc'
  end.

Definition str_of_N (n : N) : pystr := digits_of (S (N.to_nat (N.log2 n))) n [].

(** [str(z)] for a Python [int]. *)
Definition str_of_int (z : Z) : pystr :=
  match z with
  | Zneg p => 45 :: str_of_N (Npos p)
  | _ => str_of_N (Z.to_N z)
  end.

(** ** Decoded JSON values *)

(** What [json.loads] returns: [None], [bool], [int], [float], [str], [list]
    and [dict].  A [float] is kept as the text of its literal (its binary
    value is the runtime's business, see [runtime]); a [dict] is kept as its
    items in insertion order, each key once. *)
Inductive json : Type :=
  | JNull
  | JBool (b : bool)
  | JInt (z : Z)
  | JFloat (lit : pystr)
  | JStr (s : pystr)
  | JArr (items : list json)
  | JObj (members : list (pystr * json)).

(** [d[k] = v] on a dict: an existing key keeps its position and takes the
    new value, a new key goes last. *)
Fixpoint dict_set (d : list (pystr * json)) (k : pystr) (v : json)
  : list (pystr * json) :=
  match d with
  | [] => [(k, v)]
  | (k', v') :: d' =>
      if decide (k' = k) then (k, v) :: d' else (k', v') :: dict_set d' k v
  end.

(** The lookup behind [dict.get]. *)
Fixpoint dict_lookup (d : list (pystr * json)) (k : pystr) : option json :=
  match d with
  | [] => None
  | (k', v) :: d' => if decide (k' = k) then Some v else dict_lookup d' k
  end.

(** ** [json.loads]

    The decoder of CPython's [json] package for a [str] input with the
    default settings ([strict=True], no hooks): [json.decoder.JSONDecoder.decode]
    over [scanner.scan_once], [JSONObject], [JSONArray] and [scanstring].
    A [JSONDecodeError] is [None]. *)

Definition is_ws (c : N) : bool :=
  (c =? 32) || (c =? 9) || (c =? 10) || (c =? 13).

Fixpoint skip_ws (s : pystr) : pystr :=
  match s with
  | c :: r => if is_ws c then skip_ws r else s
  | [] => []
  end.

Definition hex_val (c : N) : option N :=
  if is_digit c then Some (c - 48)
  else if (97 <=? c) && (c <=? 102) then Some (c - 87)
  else if (65 <=? c) && (c <=? 70) then Some (c - 55)
  else None.

Definition hex4 (a b c d : N) : option N :=
  match hex_val a, hex_val b, hex_val c, hex_val d with
  | Some x, Some y, Some z, Some w => Some (((x * 16 + y) * 16 + z) * 16 + w)
  | _, _, _, _ => None
  end.

(** [json.decoder.BACKSLASH]. *)
Definition BACKSLASH (c : N) : option N :=
  if c =? 34 then Some 34          (* quotation mark *)
  else if c =? 92 then Some 92     (* reverse solidus *)
  else if c =? 47 then Some 47     (* solidus *)
  else if c =? 98 then Some 8      (* b: backspace *)
  else if c =? 102 then Some 12    (* f: form feed *)
  else if c =? 110 then Some 10    (* n: line feed *)
  else if c =? 114 then Some 13    (* r: carriage return *)
  else if c =? 116 then Some 9     (* t: tab *)
  else None.

Definition is_high_surrogate (c : N) : bool := (55296 <=? c) && (c <=? 56319).
Definition is_low_surrogate (c : N) : bool := (56320 <=? c) && (c <=? 57343).

Definition join_surrogates (hi lo : N) : N :=
  65536 + N.lor (N.shiftl (hi - 55296) 10) (lo - 56320).

(** [scanstring(s, end, strict=True)], entered after the opening quote:
    the decoded string and the text after the closing quote.  [acc] holds
    the characters decoded so far, last first. *)
Fixpoint scanstring (s : pystr) (acc : pystr) : option (pystr * pystr) :=
  match s with
  | [] => None                                   (* unterminated string *)
  | c :: r =>
      if c =? 34 then Some (rev acc, r)
      else if c =? 92 then
        match r with
        | [] => None
        | e :: r1 =>
            if e =? 117 then
              match r1 with
              | h1 :: h2 :: h3 :: h4 :: r2 =>
                  match hex4 h1 h2 h3 h4 with
                  | None => None                 (* invalid \uXXXX escape *)
                  | Some uni =>
                      match r2 with
                      | b :: e2 :: r3 =>
                          if is_high_surrogate uni && (b =? 92) && (e2 =? 117)
                          then
                            match r3 with
                            | g1 :: g2 :: g3 :: g4 :: r4 =>
                                match hex4 g1 g2 g3 g4 with
                                | None => None
                                | Some uni2 =>
                                    if is_low_surrogate uni2
                                    then scanstring r4
                                           (join_surrogates uni uni2 :: acc)
                                    else scanstring r2 (uni :: acc)
                                end
                            | _ => None
                            end
                          else scanstring r2 (uni :: acc)
                      | _ => scanstring r2 (uni :: acc)
                      end
                  end
              | _ => None
              end
            else
              match BACKSLASH e with
              | Some x => scanstring r1 (x :: acc)
              | None => None                     (* invalid \escape *)
              end
        end
      else if c <? 32 then None                  (* invalid control character *)
      else scanstring r (c :: acc)
  end.

(** The longest run of decimal digits at the head of the text. *)
Fixpoint span_digits (s : pystr) : pystr * pystr :=
  match s with
  | c :: r =>
      if is_digit c then let '(ds, rest) := span_digits r in (c :: ds, rest)
      else ([], s)
  | [] => ([], [])
  end.

(** [int(digits)] for a run of decimal digits. *)
Definition int_of_digits (ds : pystr) : Z :=
  fold_left (fun acc c => (acc * 10 + digit_val c)%Z) ds 0%Z.

(** [sys.int_max_str_digits], at its default: [int()] refuses a literal of
    more digits with a [ValueError]. *)
Definition INT_MAX_STR_DIGITS : N := 4300.

(** The number grammar of the scanner: an optional minus sign, an integer
    part without a leading zero, then an optional fraction and an optional
    exponent, each taken only when it has a digit.  A literal with neither
    is an [int], any other a [float].  An [int] literal over the digit
    limit cannot be decoded either (the [ValueError] of [int()], which the
    model does not tell apart from the [JSONDecodeError], itself a
    [ValueError]). *)
Definition match_number (s : pystr) : option (json * pystr) :=
  let '(neg, s1) :=
    match s with
    | c :: r => if c =? 45 then (true, r) else (false, s)
    | [] => (false, s)
    end in
  match s1 with
  | [] => None
  | c :: r =>
      if is_digit c then
        let '(int_ds, s2) := if c =? 48 then ([c], r) else span_digits s1 in
        let '(frac, s3) :=
          match s2 with
          | p :: d :: r' =>
              if (p =? 46) && is_digit d then
                let '(ds, rest) := span_digits (d :: r') in (p :: ds, rest)
              else ([], s2)
          | _ => ([], s2)
          end in
        let '(exp, s4) :=
          match s3 with
          | e :: r' =>
              if (e =? 101) || (e =? 69) then
                let '(sign, r2) :=
                  match r' with
                  | sg :: r'' =>
                      if (sg =? 45) || (sg =? 43) then ([sg], r'') else ([], r')
                  | [] => ([], r')
                  end in
                let '(ds, rest) := span_digits r2 in
                match ds with
                | [] => ([], s3)                 (* no digit: backtrack *)
                | _ :: _ => (e :: sign ++ ds, rest)
                end
              else ([], s3)
          | [] => ([], s3)
          end in
        match frac, exp with
        | [], [] =>
            if INT_MAX_STR_DIGITS <? N.of_nat (length int_ds) then None
            else
              let n := int_of_digits int_ds in
              Some (JInt (if neg then (- n)%Z else n), s4)
        | _, _ =>
            Some (JFloat ((if neg then [45] else []) ++ int_ds ++ frac ++ exp), s4)
        end
      else None
  end.

(** The constants tried when no number matches, as [float] literals. *)
Definition match_constant (s : pystr) : option (json * pystr) :=
  match strip_prefix (u "NaN") s with
  | Some rest => Some (JFloat (u "NaN"), rest)
  | None =>
      match strip_prefix (u "Infinity") s with
      | Some rest => Some (JFloat (u "Infinity"), rest)
      | None =>
          match strip_prefix (u "-Infinity") s with
          | Some rest => Some (JFloat (u "-Infinity"), rest)
          | None => None
          end
      end
  end.

(** [scan_once], [JSONObject] and [JSONArray].  The two loops are entered
    where the first key (the first item) is expected, the empty object and
    the empty array being recognised by [scan_once] itself.  No call is on
    a longer text than its caller's and every second one is on a shorter
    text, so a fuel above twice the length of the text is never used up
    ([json_loads] starts with it, see [json_loads_fuel]). *)
Fixpoint scan_once (fuel : nat) (s : pystr) {struct fuel}
  : option (json * pystr) :=
  match fuel with
  | O => None
  | S f =>
      match s with
      | [] => None                               (* expecting value *)
      | c :: r =>
          if c =? 34 then
            match scanstring r [] with
            | Some (str, rest) => Some (JStr str, rest)
            | None => None
            end
          else if c =? 123 then
            match skip_ws r with
            | c' :: r' =>
                if c' =? 125 then Some (JObj [], r')
                else JSONObject f (c' :: r') []
            | [] => None
            end
          else if c =? 91 then
            match skip_ws r with
            | c' :: r' =>
                if c' =? 93 then Some (JArr [], r')
                else JSONArray f (c' :: r') []
            | [] => None
            end
          else
            match strip_prefix (u "null") s with
            | Some rest => Some (JNull, rest)
            | None =>
            match strip_prefix (u "true") s with
            | Some rest => Some (JBool true, rest)
            | None =>
            match strip_prefix (u "false") s with
            | Some rest => Some (JBool false, rest)
            | None =>
            match match_number s with
            | Some res => Some res
            | None => match_constant s
            end end end end
      end
  end
with JSONObject (fuel : nat) (s : pystr) (pairs : list (pystr * json))
  {struct fuel} : option (json * pystr) :=
  match fuel with
  | O => None
  | S f =>
      match s with
      | [] => None
      | c :: r =>
          if c =? 34 then
            match scanstring r [] with
            | None => None
            | Some (key, s1) =>
                match skip_ws s1 with
                | [] => None
                | c1 :: r1 =>
                    if c1 =? 58 then
                      match scan_once f (skip_ws r1) with
                      | None => None
                      | Some (val, s2) =>
                          let pairs' := dict_set pairs key val in
                          match skip_ws s2 with
                          | [] => None
                          | c2 :: r2 =>
                              if c2 =? 125 then Some (JObj pairs', r2)
                              else if c2 =? 44
                                   then JSONObject f (skip_ws r2) pairs'
                                   else None   (* expecting ',' delimiter *)
                          end
                      end
                    else None                    (* expecting ':' delimiter *)
                end
            end
          else None         (* expecting property name in double quotes *)
      end
  end
with JSONArray (fuel : nat) (s : pystr) (items : list json)
  {struct fuel} : option (json * pystr) :=
  match fuel with
  | O => None
  | S f =>
      match scan_once f s with
      | None => None
      | Some (val, s1) =>
          match skip_ws s1 with
          | [] => None
          | c :: r =>
              if c =? 93 then Some (JArr (items ++ [val]), r)
              else if c =? 44 then JSONArray f (skip_ws r) (items ++ [val])
              else None                          (* expecting ',' delimiter *)
          end
      end
  end.

(** [json.loads(s)]: no byte-order mark, one value between optional white
    space, nothing after it. *)
Definition json_loads (s : pystr) : option json :=
  if startswith s [65279] then None
  else
    match scan_once (S (2 * length s)) (skip_ws s) with
    | Some (v, rest) =>
        match skip_ws rest with
        | [] => Some v
        | _ :: _ => None                         (* extra data *)
        end
    | None => None
    end.

Definition QUOTE : pystr := [34].


(** ** Python objects: exceptions, [dict.get], iteration, truthiness, [str()] *)

(** The exceptions of the model.  All but [KeyboardInterrupt] and
    [SystemExit] derive from [Exception]. *)
Inductive exn : Type :=
  | JSONDecodeError (doc : pystr)        (* json.loads on a malformed text *)
  | AttributeError (tyname : pystr)      (* [.get] on an object without it *)
  | TypeError (tyname : pystr)           (* [for] over a non-iterable *)
  | OSError (msg : pystr)                (* failure reported by the system *)
  | FileExistsError (path : pystr)
  | FileNotFoundError (path : pystr)
  | IsADirectoryError (path : pystr)
  | KeyboardInterrupt
  | SystemExit.

(** [isinstance(e, Exception)]. *)
Definition is_Exception (e : exn) : bool :=
  match e with
  | KeyboardInterrupt | SystemExit => false
  | _ => true
  end.

(** The value an expression evaluates to, or the exception it raises. *)
Inductive outcome (A : Type) : Type :=
  | Val (a : A)
  | Raise (e : exn).
Arguments Val {A} a.
Arguments Raise {A} e.

(** [type(v).__name__]. *)
Definition type_name (v : json) : pystr :=
  match v with
  | JNull => u "NoneType"
  | JBool _ => u "bool"
  | JInt _ => u "int"
  | JFloat _ => u "float"
  | JStr _ => u "str"
  | JArr _ => u "list"
  | JObj _ => u "dict"
  end.

(** [v.get(key, default)]: only a [dict] has the method. *)
Definition py_get (v : json) (key : pystr) (default : json) : outcome json :=
  match v with
  | JObj d =>
      match dict_lookup d key with
      | Some x => Val x
      | None => Val default
      end
  | _ => Raise (AttributeError (type_name v))
  end.

(** The items [for c in v] runs over: the items of a [list], the
    characters of a [str], the keys of a [dict]. *)
Definition py_iter (v : json) : outcome (list json) :=
  match v with
  | JArr items => Val items
  | JStr s => Val (map (fun c => JStr [c]) s)
  | JObj d => Val (map (fun kv => JStr (fst kv)) d)
  | _ => Raise (TypeError (type_name v))
  end.

(** What the model leaves to the Python runtime: the value of a [float]
    literal (its [repr] and whether it is non-zero), the [repr] of a [str]
    (quoting and escaping by the Unicode tables) and the text [str(e)] of
    an exception. *)
Record runtime : Type := {
  float_repr : pystr -> pystr;
  float_bool : pystr -> bool;
  str_repr : pystr -> pystr;
  exc_str : exn -> pystr
}.

(** [sep.join(parts)]. *)
Fixpoint str_join (sep : pystr) (parts : list pystr) : pystr :=
  match parts with
  | [] => []
  | [x] => x
  | x :: rest => x ++ sep ++ str_join sep rest
  end.

(** [repr(v)]. *)
Fixpoint py_repr (rt : runtime) (v : json) : pystr :=
  match v with
  | JNull => u "None"
  | JBool true => u "True"
  | JBool false => u "False"
  | JInt z => str_of_int z
  | JFloat lit => float_repr rt lit
  | JStr s => str_repr rt s
  | JArr items => u "[" ++ str_join (u ", ") (map (py_repr rt) items) ++ u "]"
  | JObj d =>
      u "{"
      ++ str_join (u ", ")
           (map (fun kv => str_repr rt (fst kv) ++ u ": " ++ py_repr rt (snd kv)) d)
      ++ u "}"
  end.

(** [str(v)], which is what [f"{v}"] inserts: a [str] stands for itself,
    anything else for its [repr]. *)
Definition py_str (rt : runtime) (v : json) : pystr :=
  match v with
  | JStr s => s
  | _ => py_repr rt v
  end.

(** [bool(v)]. *)
Definition py_bool (rt : runtime) (v : json) : bool :=
  match v with
  | JNull => false
  | JBool b => b
  | JInt z => negb (z =? 0)%Z
  | JFloat lit => float_bool rt lit
  | JStr s => negb (bool_decide (s = []))
  | JArr items => negb (bool_decide (items = []))
  | JObj d => match d with [] => false | _ :: _ => true end
  end.

(** ** Paths ([posixpath]) *)

Definition SEP : N := 47.

(** One step of [os.path.join]: an absolute component replaces what came
    before, any other is appended after a separator. *)
Definition join_step (path b : pystr) : pystr :=
  if startswith b [SEP] then b
  else if bool_decide (path = []) || endswith path [SEP] then path ++ b
  else path ++ [SEP] ++ b.

(** [os.path.join(a, *p)]. *)
Definition path_join (a : pystr) (p : list pystr) : pystr :=
  fold_left join_step p a.

(** [os.path.isabs]. *)
Definition isabs (p : pystr) : bool := startswith p [SEP].

(** ** Time *)

(** [datetime.now()], to the second. *)
Record datetime : Type := {
  year : N; month : N; day : N; hour : N; minute : N; second : N
}.

(** A number in decimal, padded with zeros on the left to [width] digits. *)
Definition zero_pad (width : nat) (n : N) : pystr :=
  let ds := str_of_N n in
  replicate (width - length ds)%nat 48 ++ ds.

(** [dt.strftime("%Y-%m-%d %H:%M:%S")]. *)
Definition strftime (dt : datetime) : pystr :=
  zero_pad 4 (year dt) ++ u "-" ++ zero_pad 2 (month dt) ++ u "-"
  ++ zero_pad 2 (day dt) ++ u " " ++ zero_pad 2 (hour dt) ++ u ":"
  ++ zero_pad 2 (minute dt) ++ u ":" ++ zero_pad 2 (second dt).

(** ** The file system, the environment and the monad of effects *)

(** A regular file: its text and its modification time. *)
Record file : Type := { content : pystr; mtime : Z }.

(** The state the functions act on: the regular files and the directories
    by path name, and the lines printed so far. *)
Record world : Type := {
  files : gmap pystr file;
  dirs : gset pystr;
  stdout : list pystr
}.

Definition set_files (w : world) (fs : gmap pystr file) : world :=
  {| files := fs; dirs := dirs w; stdout := stdout w |}.

Definition set_dirs (w : world) (ds : gset pystr) : world :=
  {| files := files w; dirs := ds; stdout := stdout w |}.

Inductive open_mode : Type := ModeR | ModeW | ModeA.

(** The operations that the system may refuse. *)
Inductive io_op : Type :=
  | OpMakedirs (path : pystr)
  | OpUtime (path : pystr)
  | OpOpen (path : pystr) (mode : open_mode)
  | OpWrite (path : pystr) (data : pystr)
  | OpRead (path : pystr).

(** What one call finds around it: the clock (as a time stamp and as a
    local date), which operations the system refuses and with which
    message ([fault]: permissions, a full disk, text that cannot be
    encoded, ...), and how many characters of a refused write reach the
    file all the same. *)
Record env : Type := {
  clock : Z;
  now : datetime;
  fault : io_op -> option pystr;
  short_write : nat
}.

(** A computation: from the state before to its outcome and the state
    after.  An exception keeps the effects that came before it. *)
Definition M (A : Type) : Type := world -> outcome A * world.

Definition ret {A : Type} (a : A) : M A := fun w => (Val a, w).

Definition raise {A : Type} (e : exn) : M A := fun w => (Raise e, w).

Definition lift {A : Type} (o : outcome A) : M A := fun w => (o, w).

Definition bind {A B : Type} (m : M A) (k : A -> M B) : M B :=
  fun w =>
    match m w with
    | (Val a, w') => k a w'
    | (Raise e, w') => (Raise e, w')
    end.

(** [try: body / except Exception as e: handler(e)]. *)
Definition try_except {A : Type} (body : M A) (handler : exn -> M A) : M A :=
  fun w =>
    match body w with
    | (Val a, w') => (Val a, w')
    | (Raise e, w') => if is_Exception e then handler e w' else (Raise e, w')
    end.

Declare Scope monad_scope.
Delimit Scope monad_scope with monad.
Notation "x <- m ;; k" := (bind m (fun x => k))
  (at level 100, m at next level, right associativity) : monad_scope.
Notation "m ;; k" := (bind m (fun _ => k))
  (at level 100, right associativity) : monad_scope.
Open Scope monad_scope.

(** [os.path.exists]. *)
Definition path_exists (w : world) (p : pystr) : bool :=
  bool_decide (is_Some (files w !! p)) || bool_decide (p ∈ dirs w).

Definition os_path_exists (p : pystr) : M bool :=
  fun w => (Val (path_exists w p), w).

(** [os.makedirs(p, exist_ok=True)]. *)
Definition os_makedirs (e : env) (p : pystr) : M unit :=
  fun w =>
    match fault e (OpMakedirs p) with
    | Some msg => (Raise (OSError msg), w)
    | None =>
        match files w !! p with
        | Some _ => (Raise (FileExistsError p), w)
        | None => (Val tt, set_dirs w ({[p]} ∪ dirs w))
        end
    end.

(** [os.utime(p, times=None)]: the modification time becomes the current
    time.  The time stamps of directories are not part of the state. *)
Definition os_utime (e : env) (p : pystr) : M unit :=
  fun w =>
    match fault e (OpUtime p) with
    | Some msg => (Raise (OSError msg), w)
    | None =>
        match files w !! p with
        | Some f =>
            (Val tt,
             set_files w (<[p := {| content := content f; mtime := clock e |}]> (files w)))
        | None =>
            if bool_decide (p ∈ dirs w) then (Val tt, w)
            else (Raise (FileNotFoundError p), w)
        end
    end.

(** [open(p, mode, encoding="utf-8")]: mode [w] creates or empties the
    file, mode [a] creates it when it is missing, mode [r] needs it. *)
Definition py_open (e : env) (p : pystr) (mode : open_mode) : M unit :=
  fun w =>
    match fault e (OpOpen p mode) with
    | Some msg => (Raise (OSError msg), w)
    | None =>
        if bool_decide (p ∈ dirs w) then (Raise (IsADirectoryError p), w)
        else
          match mode, files w !! p with
          | ModeR, Some _ => (Val tt, w)
          | ModeR, None => (Raise (FileNotFoundError p), w)
          | ModeW, _ =>
              (Val tt,
               set_files w (<[p := {| content := []; mtime := clock e |}]> (files w)))
          | ModeA, Some _ => (Val tt, w)
          | ModeA, None =>
              (Val tt,
               set_files w (<[p := {| content := []; mtime := clock e |}]> (files w)))
          end
    end.

(** The text of the file at [p], the empty text when there is none. *)
Definition text_of (w : world) (p : pystr) : pystr :=
  match files w !! p with
  | Some f => content f
  | None => []
  end.

(** [f.write(data)] on the file opened at [p] for writing: the text goes to
    the end of the file.  A refused write leaves a part of it behind. *)
Definition f_write (e : env) (p : pystr) (data : pystr) : M unit :=
  fun w =>
    let put (d : pystr) :=
      set_files w
        (<[p := {| content := text_of w p ++ d; mtime := clock e |}]> (files w)) in
    match fault e (OpWrite p data) with
    | Some msg => (Raise (OSError msg), put (take (short_write e) data))
    | None => (Val tt, put data)
    end.

(** [f.writelines(lines)]: one write for each line, in order. *)
Fixpoint f_writelines (e : env) (p : pystr) (lines : list pystr) : M unit :=
  match lines with
  | [] => ret tt
  | l :: rest => f_write e p l ;; f_writelines e p rest
  end.

(** [f.read()] on the file opened at [p] for reading. *)
Definition f_read (e : env) (p : pystr) : M pystr :=
  fun w =>
    match fault e (OpRead p) with
    | Some msg => (Raise (OSError msg), w)
    | None => (Val (text_of w p), w)
    end.

(** [print(line)]. *)
Definition print (line : pystr) : M unit :=
  fun w =>
    (Val tt, {| files := files w; dirs := dirs w; stdout := stdout w ++ [line] |}).

(** [s[:k]]. *)
Definition slice_to (s : pystr) (k : Z) : pystr :=
  if (0 <=? k)%Z then take (Z.to_nat k) s
  else take (length s - Z.to_nat (- k))%nat s.

(** ** The functions of [agent.py] *)

Section Agent.

(** The Python runtime, and the value of [repo_root()] in the running
    process: [os.path.abspath(os.path.join(os.path.dirname(__file__), ".."))]. *)
Variable rt : runtime.
Variable repo_root : pystr.

(** The two paths the module computes from [repo_root()]. *)
Definition test_suites_path : pystr := path_join repo_root [u "test_suites.md"].

Definition results_path : pystr :=
  path_join repo_root [u "test_reports"; u "results.md"].

Definition STUB : pystr :=
  u "# Generated Test Suites" ++ [LF; LF] ++ u "Please fill with test cases." ++ [LF].

(** [generate_test_suites_file()]: touch [test_suites.md] when it is there,
    write the stub otherwise; a failure is printed and gives [None]. *)
Definition generate_test_suites_file (e : env) : M (option pystr) :=
  let target := test_suites_path in
  try_except
    (present <- os_path_exists target ;;
     if present then
       os_utime e target ;;
       ret (Some target)
     else
       py_open e target ModeW ;;
       f_write e target STUB ;;
       ret (Some target))
    (fun ex =>
       print (u "[agent] Failed to write test_suites.md: " ++ exc_str rt ex) ;;
       ret None).

(** [read_latest_report_summary(max_chars)]. *)
Definition read_latest_report_summary (e : env) (max_chars : Z)
  : M (option pystr) :=
  let rpt := results_path in
  present <- os_path_exists rpt ;;
  if negb present then ret None
  else
    try_except
      (py_open e rpt ModeR ;;
       text <- f_read e rpt ;;
       ret (Some (slice_to text max_chars)))
      (fun ex => ret (Some (u "Failed to read report: " ++ exc_str rt ex))).

(** [ensure_reports_dir()]. *)
Definition ensure_reports_dir (e : env) : M pystr :=
  let path := path_join repo_root [u "test_reports"] in
  os_makedirs e path ;;
  ret path.

(** The dict [write_report] returns: [{"ok": True, "path": ...}] or
    [{"ok": False, "error": ...}]. *)
Inductive report_result : Type :=
  | ROk (path : pystr)
  | RErr (error : pystr).

(** The five lines every block starts with. *)
Definition head_lines (test_name : pystr) (status : json) (when : pystr)
    (url title : json) : list pystr :=
  [ u "## " ++ test_name ++ u " " ++ [EM_DASH] ++ u " " ++ py_str rt status ++ [LF];
    u "- When: " ++ when ++ [LF];
    u "- URL: " ++ py_str rt url ++ [LF];
    u "- Title: " ++ py_str rt title ++ [LF];
    u "- Checks:" ++ [LF] ].

(** The line of one check. *)
Definition check_line (ok : bool) (nm det : json) : pystr :=
  u "  - [" ++ [if ok then CHECK_MARK else BALLOT_X] ++ u "] "
  ++ py_str rt nm ++ u " " ++ [EM_DASH] ++ u " " ++ py_str rt det ++ [LF].

(** The loop [for c in checks: ... lines.append(...)]. *)
Fixpoint checks_loop (cs : list json) (lines : list pystr)
  : outcome (list pystr) :=
  match cs with
  | [] => Val lines
  | c :: cs' =>
      match py_get c (u "ok") JNull with
      | Raise ex => Raise ex
      | Val okv =>
          let ok := py_bool rt okv in
          match py_get c (u "name") (JStr []) with
          | Raise ex => Raise ex
          | Val nm =>
              match py_get c (u "details") (JStr []) with
              | Raise ex => Raise ex
              | Val det => checks_loop cs' (lines ++ [check_line ok nm det])
              end
          end
      end
  end.

Definition SEPARATOR : pystr := [LF] ++ u "---" ++ [LF; LF].

(** [json.loads] with its exception. *)
Definition loads (doc : pystr) : outcome json :=
  match json_loads doc with
  | Some v => Val v
  | None => Raise (JSONDecodeError doc)
  end.

(** The body of the [try] of [write_report]. *)
Definition write_report_body (e : env) (test_name status_json : pystr)
    (report_file : option pystr) : M report_result :=
  ensure_reports_dir e ;;
  generate_test_suites_file e ;;
  let report_file :=
    match report_file with
    | None => path_join repo_root [u "test_reports"; u "results.md"]
    | Some p => p
    end in
  obj <- lift (loads status_json) ;;
  status <- lift (py_get obj (u "status") (JStr (u "UNKNOWN"))) ;;
  checks <- lift (py_get obj (u "checks") (JArr [])) ;;
  artifacts <- lift (py_get obj (u "artifacts") (JObj [])) ;;
  url <- lift (py_get artifacts (u "url") (JStr [])) ;;
  title <- lift (py_get artifacts (u "title") (JStr [])) ;;
  let when := strftime (now e) in
  let lines := head_lines test_name status when url title in
  cs <- lift (py_iter checks) ;;
  lines <- lift (checks_loop cs lines) ;;
  let lines := lines ++ [SEPARATOR] in
  py_open e report_file ModeA ;;
  f_writelines e report_file lines ;;
  ret (ROk report_file).

(** [write_report(test_name, status_json, report_file)]. *)
Definition write_report (e : env) (test_name status_json : pystr)
    (report_file : option pystr) : M report_result :=
  try_except
    (write_report_body e test_name status_json report_file)
    (fun ex => ret (RErr (exc_str rt ex))).

End Agent.

(** ** Derived notions used to state the properties *)

(** The pure part of the body of [write_report]: the lines of the block
    for a verdict text, or the exception decoding and formatting raise. *)
Definition block_lines (rt : runtime) (test_name status_json when : pystr)
  : outcome (list pystr) :=
  match loads status_json with
  | Raise ex => Raise ex
  | Val obj =>
  match py_get obj (u "status") (JStr (u "UNKNOWN")) with
  | Raise ex => Raise ex
  | Val status =>
  match py_get obj (u "checks") (JArr []) with
  | Raise ex => Raise ex
  | Val checks =>
  match py_get obj (u "artifacts") (JObj []) with
  | Raise ex => Raise ex
  | Val artifacts =>
  match py_get artifacts (u "url") (JStr []) with
  | Raise ex => Raise ex
  | Val url =>
  match py_get artifacts (u "title") (JStr []) with
  | Raise ex => Raise ex
  | Val title =>
  match py_iter checks with
  | Raise ex => Raise ex
  | Val cs =>
  match checks_loop rt cs (head_lines rt test_name status when url title) with
  | Raise ex => Raise ex
  | Val lines => Val (lines ++ [SEPARATOR])
  end end end end end end end end.

(** The text of the block, empty when there is none. *)
Definition block_text (rt : runtime) (test_name status_json when : pystr) : pystr :=
  match block_lines rt test_name status_json when with
  | Val lines => concat lines
  | Raise _ => []
  end.

(** The path a call appends to. *)
Definition report_path (repo_root : pystr) (report_file : option pystr) : pystr :=
  match report_file with
  | None => results_path repo_root
  | Some p => p
  end.

Definition reports_dir (repo_root : pystr) : pystr :=
  path_join repo_root [u "test_reports"].

(** The two steps before the verdict is decoded. *)
Definition bootstrap (rt : runtime) (repo_root : pystr) (e : env) : M unit :=
  ensure_reports_dir repo_root e ;;
  generate_test_suites_file rt repo_root e ;;
  ret tt.

(** What one call does, as a case analysis on its steps. *)
Definition write_report_steps (rt : runtime) (repo_root : pystr) (e : env)
    (name doc : pystr) (rf : option pystr) (w : world)
  : outcome report_result * world :=
  match ensure_reports_dir repo_root e w with
  | (Raise ex, w1) => (Val (RErr (exc_str rt ex)), w1)
  | (Val _, w1) =>
      let w2 := snd (generate_test_suites_file rt repo_root e w1) in
      match block_lines rt name doc (strftime (now e)) with
      | Raise ex => (Val (RErr (exc_str rt ex)), w2)
      | Val lines =>
          let p := report_path repo_root rf in
          match py_open e p ModeA w2 with
          | (Raise ex, w3) => (Val (RErr (exc_str rt ex)), w3)
          | (Val _, w3) =>
              match f_writelines e p lines w3 with
              | (Raise ex, w4) => (Val (RErr (exc_str rt ex)), w4)
              | (Val _, w4) => (Val (ROk p), w4)
              end
          end
      end
  end.

(** What [os.path.join] puts before a relative component. *)
Definition root_prefix (repo_root : pystr) : pystr :=
  if bool_decide (repo_root = []) || endswith repo_root [SEP] then repo_root
  else repo_root ++ [SEP].

(** A computation that raises nothing but [Exception]s. *)
Definition only_Exceptions {A : Type} (m : M A) : Prop :=
  forall w ex w', m w = (Raise ex, w') -> is_Exception ex = true.

(** A computation that always returns a value. *)
Definition never_raises {A : Type} (m : M A) : Prop :=
  forall w, exists a w', m w = (Val a, w').

(** An environment in which the system refuses nothing. *)
Definition no_faults (e : env) : Prop := forall op, fault e op = None.

(** A member of a decoded object is an object or missing. *)
Definition is_dict (v : json) : bool :=
  match v with JObj _ => true | _ => false end.

(** The verdicts [write_report] can format: an object whose [artifacts],
    when present, is an object and whose [checks], when present, can be
    iterated and yields only objects. *)
Definition well_shaped (v : json) : bool :=
  match v with
  | JObj d =>
      match dict_lookup d (u "artifacts") with
      | Some a => is_dict a
      | None => true
      end
      &&
      match dict_lookup d (u "checks") with
      | Some c =>
          match py_iter c with
          | Val cs => forallb is_dict cs
          | Raise _ => false
          end
      | None => true
      end
  | _ => false
  end.

(** [o] when it is a value, [d] otherwise: the second argument of [get]. *)
Definition default_of (o : option json) (d : json) : json :=
  match o with
  | Some x => x
  | None => d
  end.

(** One call of a run: what it finds around it and its arguments. *)
Record call : Type := {
  call_env : env;
  call_name : pystr;
  call_json : pystr;
  call_file : option pystr
}.

(** The members a block is made of, with the defaults of [get]. *)
Definition status_of (d : list (pystr * json)) : json :=
  default_of (dict_lookup d (u "status")) (JStr (u "UNKNOWN")).

Definition checks_of (d : list (pystr * json)) : list json :=
  match py_iter (default_of (dict_lookup d (u "checks")) (JArr [])) with
  | Val cs => cs
  | Raise _ => []
  end.

Definition artifact_of (d : list (pystr * json)) (key : pystr) : json :=
  match default_of (dict_lookup d (u "artifacts")) (JObj []) with
  | JObj a => default_of (dict_lookup a key) (JStr [])
  | _ => JStr []
  end.

(** The line of a check that is an object. *)
Definition check_line_of (rt : runtime) (c : json) : pystr :=
  match c with
  | JObj d =>
      check_line rt
        (py_bool rt (default_of (dict_lookup d (u "ok")) JNull))
        (default_of (dict_lookup d (u "name")) (JStr []))
        (default_of (dict_lookup d (u "details")) (JStr []))
  | _ => []
  end.

(** The lines of the block of a well-shaped verdict, in their order:
    heading, When, URL, Title, Checks, one line for each check, separator. *)
Definition verdict_lines (rt : runtime) (test_name : pystr)
    (d : list (pystr * json)) (when : pystr) : list pystr :=
  head_lines rt test_name (status_of d) when
    (artifact_of d (u "url")) (artifact_of d (u "title"))
  ++ map (check_line_of rt) (checks_of d)
  ++ [SEPARATOR].

(** The system lets a call through: nothing is refused, the reports
    directory can be made, and the report path is not a directory. *)
Definition io_ready (repo_root : pystr) (rf : option pystr) (e : env) (w : world)
  : Prop :=
  no_faults e /\
  (files w !! reports_dir repo_root = None) /\
  (report_path repo_root rf ∉ dirs w) /\
  (report_path repo_root rf ≠ reports_dir repo_root).


(** Calls made one after the other; the results come in call order. *)
Fixpoint run_calls (rt : runtime) (repo_root : pystr) (cs : list call) (w : world)
  : list (outcome report_result) * world :=
  match cs with
  | [] => ([], w)
  | c :: rest =>
      let '(r, w1) :=
        write_report rt repo_root (call_env c) (call_name c) (call_json c)
          (call_file c) w in
      let '(rs, w2) := run_calls rt repo_root rest w1 in
      (r :: rs, w2)
  end.

(** Whether an outcome is the success dict. *)
Definition is_ok (r : outcome report_result) : bool :=
  match r with
  | Val (ROk _) => true
  | _ => false
  end.

(** *** A runtime, an environment and a state to run examples in *)

Definition APOS : pystr := [39].

Definition example_exc_str (ex : exn) : pystr :=
  match ex with
  | JSONDecodeError _ => u "Expecting value"
  | AttributeError ty => APOS ++ ty ++ APOS ++ u " object has no attribute " ++ APOS ++ u "get" ++ APOS
  | TypeError ty => APOS ++ ty ++ APOS ++ u " object is not iterable"
  | OSError msg => msg
  | FileExistsError p => u "[Errno 17] File exists: " ++ p
  | FileNotFoundError p => u "[Errno 2] No such file or directory: " ++ p
  | IsADirectoryError p => u "[Errno 21] Is a directory: " ++ p
  | KeyboardInterrupt => []
  | SystemExit => []
  end.

Definition example_runtime : runtime := {|
  float_repr := fun lit => lit;
  float_bool := fun _ => true;
  str_repr := fun s => APOS ++ s ++ APOS;
  exc_str := example_exc_str
|}.

Definition example_now : datetime :=
  {| year := 2024; month := 3; day := 9; hour := 14; minute := 5; second := 0 |}.

Definition quiet_env (t : Z) : env :=
  {| clock := t; now := example_now; fault := fun _ => None; short_write := 0 |}.

(** An environment that refuses one kind of operation: creating directories. *)
Definition readonly_env (t : Z) : env :=
  {| clock := t; now := example_now;
     fault := fun op =>
       match op with
       | OpMakedirs _ => Some (u "[Errno 13] Permission denied")
       | _ => None
       end;
     short_write := 0 |}.

Definition empty_world : world := {| files := ∅; dirs := ∅; stdout := [] |}.

Definition example_root : pystr := u "/repo".

Definition T_name : pystr := u "T".



Definition status_skipped_json : pystr :=
  u "{" ++ QUOTE ++ u "status" ++ QUOTE ++ u ":" ++ QUOTE ++ u "SKIPPED" ++ QUOTE
  ++ u "}".

Definition not_json : pystr := u "{not json".

Definition empty_object_json : pystr := u "{}".

Definition example_call (doc : pystr) (rf : option pystr) (w : world) :=
  write_report example_runtime example_root (quiet_env 100) T_name doc rf w.

(** The status as the heading shows it. *)
Definition status_text (rt : runtime) (d : list (pystr * json)) : pystr :=
  match dict_lookup d (u "status") with
  | None => u "UNKNOWN"
  | Some v => py_str rt v
  end.

(** The heading of a block. *)
Definition heading (test_name status : pystr) : pystr :=
  u "## " ++ test_name ++ u " " ++ [EM_DASH] ++ u " " ++ status ++ [LF].





(** A state with one file and nothing else. *)
Definition world_with (p text : pystr) (t : Z) : world :=
  {| files := {[ p := {| content := text; mtime := t |} ]};
     dirs := ∅;
     stdout := [] |}.

(** A call of the examples: at time 100, named [T]. *)
Definition example_call_of (doc : pystr) (rf : option pystr) : call :=
  {| call_env := quiet_env 100; call_name := T_name; call_json := doc;
     call_file := rf |}.


(** The system refuses no write to the file at [p]. *)
Definition writes_allowed (e : env) (p : pystr) : Prop :=
  forall data, fault e (OpWrite p data) = None.



(** What the reader returns, by what it finds at [results.md]: the entry
    among the files and whether the name is a directory. *)
Definition reader_value (rt : runtime) (repo_root : pystr) (e : env) (k : Z)
    (entry : option file) (is_dir : bool) : option pystr :=
  let rpt := results_path repo_root in
  let failed ex := Some (u "Failed to read report: " ++ exc_str rt ex) in
  if negb (bool_decide (is_Some entry) || is_dir) then None
  else
    match fault e (OpOpen rpt ModeR) with
    | Some msg => failed (OSError msg)
    | None =>
        if is_dir then failed (IsADirectoryError rpt)
        else
          match entry with
          | None => failed (FileNotFoundError rpt)
          | Some f =>
              match fault e (OpRead rpt) with
              | Some msg => failed (OSError msg)
              | None => Some (slice_to (content f) k)
              end
          end
    end.

(** A verdict with an unknown key only. *)
Definition extra_key_json : pystr :=
  u "{" ++ QUOTE ++ u "note" ++ QUOTE ++ u ": 1}".

(** An environment in which every write is refused after [n] characters. *)
Definition no_write_env (t : Z) (n : nat) : env :=
  {| clock := t; now := example_now;
     fault := fun op =>
       match op with
       | OpWrite _ _ => Some (u "[Errno 28] No space left on device")
       | _ => None
       end;
     short_write := n |}.

(** * Properties *)

(** ** The decoder: its fuel is enough *)

Lemma skip_ws_length (s : pystr) : (length (skip_ws s) <= length s)%nat.
Proof.
  induction s as [| c r IH]; simpl; [lia |].
  destruct (is_ws c); simpl; lia.
Qed.

Lemma strip_prefix_length (p s rest : pystr) :
  strip_prefix p s = Some rest -> length s = (length p + length rest)%nat.
Proof.
  revert s. induction p as [| a p IH]; intros s H; simpl in H.
  - inversion H; subst. reflexivity.
  - destruct s as [| b s]; [discriminate H |].
    destruct (a =? b); [| discriminate H].
    simpl. now rewrite (IH _ H).
Qed.

Lemma span_digits_length (s ds rest : pystr) :
  span_digits s = (ds, rest) -> length s = (length ds + length rest)%nat.
Proof.
  revert ds rest. induction s as [| c r IH]; intros ds rest H; simpl in H.
  - inversion H; subst. reflexivity.
  - destruct (is_digit c).
    + destruct (span_digits r) as [ds' rest'] eqn:E. inversion H; subst.
      simpl. now rewrite (IH _ _ eq_refl).
    + inversion H; subst. reflexivity.
Qed.

Lemma scanstring_shorter (n : nat) :
  forall s acc r rest,
    (length s <= n)%nat -> scanstring s acc = Some (r, rest) ->
    (length rest < length s)%nat.
Proof.
  induction n as [| n IH]; intros s acc r rest Hn H.
  - destruct s; [discriminate H | simpl in Hn; lia].
  - destruct s as [| c s]; [discriminate H |].
    cbn [scanstring] in H. simpl in Hn.
    repeat match type of H with
           | Some _ = Some _ => inversion H; subst; clear H; simpl; lia
           | None = Some _ => discriminate H
           | scanstring ?x _ = Some _ =>
               apply IH in H; [simpl in *; lia | simpl in *; lia]
           | context [match ?x with _ => _ end] => destruct x eqn:?
           | context [if ?x then _ else _] => destruct x eqn:?
           end.
Qed.

Lemma match_constant_shorter (s : pystr) (v : json) (rest : pystr) :
  match_constant s = Some (v, rest) -> (length rest < length s)%nat.
Proof.
  unfold match_constant. intros H.
  destruct (strip_prefix (u "NaN") s) eqn:E1.
  { inversion H; subst. apply strip_prefix_length in E1. simpl in E1. lia. }
  destruct (strip_prefix (u "Infinity") s) eqn:E2.
  { inversion H; subst. apply strip_prefix_length in E2. simpl in E2. lia. }
  destruct (strip_prefix (u "-Infinity") s) eqn:E3; [| discriminate H].
  inversion H; subst. apply strip_prefix_length in E3. simpl in E3. lia.
Qed.

Lemma match_number_shorter (s : pystr) (v : json) (rest : pystr) :
  match_number s = Some (v, rest) -> (length rest < length s)%nat.
Proof.
  unfold match_number. intros H.
  destruct (match s with
            | [] => (false, s)
            | c :: r => if c =? 45 then (true, r) else (false, s)
            end) as [neg s1] eqn:Es.
  assert (Hs1 : (length s1 <= length s)%nat).
  { destruct s as [| c r]; [inversion Es; subst; simpl; lia |].
    destruct (c =? 45); inversion Es; subst; simpl; lia. }
  destruct s1 as [| c r]; [discriminate H |].
  destruct (is_digit c) eqn:Ed; [| discriminate H].
  destruct (if c =? 48 then ([c], r) else span_digits (c :: r))
    as [int_ds s2] eqn:Ei.
  assert (Hs2 : (length s2 < length (c :: r))%nat).
  { destruct (c =? 48).
    - inversion Ei; subst. simpl. lia.
    - pose proof (span_digits_length _ _ _ Ei) as Hl.
      simpl in Ei. rewrite Ed in Ei.
      destruct (span_digits r) as [ds' rest'] eqn:E. inversion Ei; subst.
      simpl in *. lia. }
  match type of H with
  | (let '(frac, s3) := ?x in _) = _ => destruct x as [frac s3] eqn:Ef
  end.
  assert (Hs3 : (length s3 <= length s2)%nat).
  { destruct s2 as [| p0 [| d r']]; try (inversion Ef; subst; simpl; lia).
    destruct ((p0 =? 46) && is_digit d); [| inversion Ef; subst; simpl; lia].
    destruct (span_digits (d :: r')) as [ds rest0] eqn:E.
    apply span_digits_length in E. inversion Ef; subst. simpl in *. lia. }
  match type of H with
  | (let '(exp, s4) := ?x in _) = _ => destruct x as [exp s4] eqn:Ee
  end.
  assert (Hs4 : (length s4 <= length s3)%nat).
  { destruct s3 as [| e0 r']; [inversion Ee; subst; simpl; lia |].
    destruct ((e0 =? 101) || (e0 =? 69)); [| inversion Ee; subst; simpl; lia].
    match type of Ee with
    | (let '(sign, r2) := ?x in _) = _ => destruct x as [sign r2] eqn:Eg
    end.
    assert (Hr2 : (length r2 <= length r')%nat).
    { destruct r' as [| sg r'']; [inversion Eg; subst; simpl; lia |].
      destruct ((sg =? 45) || (sg =? 43)); inversion Eg; subst; simpl; lia. }
    destruct (span_digits r2) as [ds rest0] eqn:E.
    apply span_digits_length in E.
    destruct ds; inversion Ee; subst; simpl in *; lia. }
  assert (Hrest : rest = s4).
  { destruct frac, exp; try (inversion H; subst; reflexivity).
    destruct (INT_MAX_STR_DIGITS <? N.of_nat (length int_ds));
      [discriminate H | inversion H; subst; reflexivity]. }
  subst. simpl in *. lia.
Qed.

Lemma skip_ws_cons_length (s r : pystr) (c : N) :
  skip_ws s = c :: r -> (length r < length s)%nat.
Proof.
  intros H. pose proof (skip_ws_length s) as Hl. rewrite H in Hl.
  simpl in Hl. lia.
Qed.

(** Whatever the scanner returns is what follows the value it has read: a
    strictly shorter text. *)
Lemma scan_shorter (fuel : nat) :
  (forall s v rest,
     scan_once fuel s = Some (v, rest) -> (length rest < length s)%nat)
  /\ (forall s pairs v rest,
        JSONObject fuel s pairs = Some (v, rest) ->
        (length rest < length s)%nat)
  /\ (forall s items v rest,
        JSONArray fuel s items = Some (v, rest) ->
        (length rest < length s)%nat).
Proof.
  induction fuel as [| f (IHs & IHo & IHa)].
  { repeat split; intros; discriminate. }
  split; [| split].
  - intros s v rest H. cbn [scan_once] in H.
    destruct s as [| c r]; [discriminate H |].
    destruct (c =? 34).
    { destruct (scanstring r []) as [[str rest'] |] eqn:E; [| discriminate H].
      inversion H; subst.
      apply (scanstring_shorter _ _ _ _ _ (le_n _)) in E. simpl. lia. }
    destruct (c =? 123).
    { destruct (skip_ws r) as [| c' r'] eqn:E; [discriminate H |].
      apply skip_ws_cons_length in E.
      destruct (c' =? 125).
      - inversion H; subst. simpl. lia.
      - apply IHo in H. simpl in *. lia. }
    destruct (c =? 91).
    { destruct (skip_ws r) as [| c' r'] eqn:E; [discriminate H |].
      apply skip_ws_cons_length in E.
      destruct (c' =? 93).
      - inversion H; subst. simpl. lia.
      - apply IHa in H. simpl in *. lia. }
    destruct (strip_prefix (u "null") (c :: r)) eqn:E1.
    { inversion H; subst. apply strip_prefix_length in E1. simpl in *. lia. }
    destruct (strip_prefix (u "true") (c :: r)) eqn:E2.
    { inversion H; subst. apply strip_prefix_length in E2. simpl in *. lia. }
    destruct (strip_prefix (u "false") (c :: r)) eqn:E3.
    { inversion H; subst. apply strip_prefix_length in E3. simpl in *. lia. }
    destruct (match_number (c :: r)) as [[v' rest'] |] eqn:E4.
    { inversion H; subst. now apply match_number_shorter in E4. }
    now apply match_constant_shorter in H.
  - intros s pairs v rest H. cbn [JSONObject] in H.
    destruct s as [| c r]; [discriminate H |].
    destruct (c =? 34); [| discriminate H].
    destruct (scanstring r []) as [[key s1] |] eqn:E; [| discriminate H].
    apply (scanstring_shorter _ _ _ _ _ (le_n _)) in E.
    destruct (skip_ws s1) as [| c1 r1] eqn:E1; [discriminate H |].
    apply skip_ws_cons_length in E1.
    destruct (c1 =? 58); [| discriminate H].
    destruct (scan_once f (skip_ws r1)) as [[val s2] |] eqn:E2;
      [| discriminate H].
    apply IHs in E2. pose proof (skip_ws_length r1) as Hr1.
    destruct (skip_ws s2) as [| c2 r2] eqn:E3; [discriminate H |].
    apply skip_ws_cons_length in E3.
    destruct (c2 =? 125).
    { inversion H; subst. simpl. lia. }
    destruct (c2 =? 44); [| discriminate H].
    apply IHo in H. pose proof (skip_ws_length r2) as Hr2. simpl. lia.
  - intros s items v rest H. cbn [JSONArray] in H.
    destruct (scan_once f s) as [[val s1] |] eqn:E; [| discriminate H].
    apply IHs in E.
    destruct (skip_ws s1) as [| c r] eqn:E1; [discriminate H |].
    apply skip_ws_cons_length in E1.
    destruct (c =? 93).
    { inversion H; subst. lia. }
    destruct (c =? 44); [| discriminate H].
    apply IHa in H. pose proof (skip_ws_length r) as Hr. lia.
Qed.

(** A fuel above twice the length of the text is never used up: with any
    two such fuels the scanner gives the same. *)
Lemma scan_fuel (fuel : nat) :
  forall fuel',
    (forall s, (2 * length s < fuel)%nat -> (2 * length s < fuel')%nat ->
               scan_once fuel s = scan_once fuel' s)
    /\ (forall s pairs,
          (2 * length s + 1 < fuel)%nat -> (2 * length s + 1 < fuel')%nat ->
          JSONObject fuel s pairs = JSONObject fuel' s pairs)
    /\ (forall s items,
          (2 * length s + 1 < fuel)%nat -> (2 * length s + 1 < fuel')%nat ->
          JSONArray fuel s items = JSONArray fuel' s items).
Proof.
  induction fuel as [| f IH]; intros fuel'.
  { repeat split; intros; lia. }
  destruct fuel' as [| f'].
  { repeat split; intros; lia. }
  destruct (IH f') as (IHs & IHo & IHa).
  split; [| split].
  - intros s Hf Hf'. cbn [scan_once].
    destruct s as [| c r]; [reflexivity |]. simpl length in Hf, Hf'.
    destruct (c =? 34); [reflexivity |].
    destruct (c =? 123).
    { destruct (skip_ws r) as [| c' r'] eqn:E; [reflexivity |].
      pose proof (skip_ws_length r) as Hl. rewrite E in Hl.
      destruct (c' =? 125); [reflexivity |]. apply IHo; lia. }
    destruct (c =? 91).
    { destruct (skip_ws r) as [| c' r'] eqn:E; [reflexivity |].
      pose proof (skip_ws_length r) as Hl. rewrite E in Hl.
      destruct (c' =? 93); [reflexivity |]. apply IHa; lia. }
    reflexivity.
  - intros s pairs Hf Hf'. cbn [JSONObject].
    destruct s as [| c r]; [reflexivity |]. simpl length in Hf, Hf'.
    destruct (c =? 34); [| reflexivity].
    destruct (scanstring r []) as [[key s1] |] eqn:E; [| reflexivity].
    apply (scanstring_shorter _ _ _ _ _ (le_n _)) in E.
    destruct (skip_ws s1) as [| c1 r1] eqn:E1; [reflexivity |].
    apply skip_ws_cons_length in E1.
    destruct (c1 =? 58); [| reflexivity].
    pose proof (skip_ws_length r1) as Hr1.
    rewrite (IHs (skip_ws r1)) by lia.
    destruct (scan_once f' (skip_ws r1)) as [[val s2] |] eqn:E2;
      [| reflexivity].
    apply (proj1 (scan_shorter f')) in E2.
    destruct (skip_ws s2) as [| c2 r2] eqn:E3; [reflexivity |].
    apply skip_ws_cons_length in E3.
    destruct (c2 =? 125); [reflexivity |].
    destruct (c2 =? 44); [| reflexivity].
    pose proof (skip_ws_length r2) as Hr2. apply IHo; lia.
  - intros s items Hf Hf'. cbn [JSONArray].
    rewrite (IHs s) by lia.
    destruct (scan_once f' s) as [[val s1] |] eqn:E; [| reflexivity].
    apply (proj1 (scan_shorter f')) in E.
    destruct (skip_ws s1) as [| c r] eqn:E1; [reflexivity |].
    apply skip_ws_cons_length in E1.
    destruct (c =? 93); [reflexivity |].
    destruct (c =? 44); [| reflexivity].
    pose proof (skip_ws_length r) as Hr. apply IHa; lia.
Qed.

(** The fuel [json_loads] starts with is enough: more fuel decodes the same
    texts to the same values. *)
Lemma json_loads_fuel (s : pystr) (fuel : nat) :
  (2 * length s < fuel)%nat ->
  scan_once fuel (skip_ws s) = scan_once (S (2 * length s)) (skip_ws s).
Proof.
  intros Hf. pose proof (skip_ws_length s) as Hl.
  apply (proj1 (scan_fuel fuel (S (2 * length s)))); lia.
Qed.

(** ** The monad *)

Lemma bind_val {A B : Type} (m : M A) (k : A -> M B) (w w1 : world) (a : A) :
  m w = (Val a, w1) -> bind m k w = k a w1.
Proof. intros H. unfold bind. now rewrite H. Qed.

Lemma bind_raise {A B : Type} (m : M A) (k : A -> M B) (w w1 : world) (ex : exn) :
  m w = (Raise ex, w1) -> bind m k w = (Raise ex, w1).
Proof. intros H. unfold bind. now rewrite H. Qed.

Lemma bind_inv_val {A B : Type} (m : M A) (k : A -> M B) (w w' : world) (b : B) :
  bind m k w = (Val b, w') ->
  exists a w1, m w = (Val a, w1) /\ k a w1 = (Val b, w').
Proof.
  unfold bind. destruct (m w) as [[a | ex] w1]; intros H.
  - exists a, w1. split; [reflexivity | exact H].
  - discriminate H.
Qed.

Lemma only_Exceptions_ret {A : Type} (a : A) : only_Exceptions (ret a).
Proof. intros w ex w' H. discriminate H. Qed.

Lemma only_Exceptions_bind {A B : Type} (m : M A) (k : A -> M B) :
  only_Exceptions m -> (forall a, only_Exceptions (k a)) ->
  only_Exceptions (bind m k).
Proof.
  intros Hm Hk w ex w' H. unfold bind in H.
  destruct (m w) as [[a | ex1] w1] eqn:Em.
  - exact (Hk a w1 ex w' H).
  - inversion H; subst. exact (Hm w ex w' Em).
Qed.

Lemma only_Exceptions_lift {A : Type} (o : outcome A) :
  (forall ex, o = Raise ex -> is_Exception ex = true) ->
  only_Exceptions (lift o).
Proof.
  intros Ho w ex w' H. unfold lift in H. inversion H; subst. now apply Ho.
Qed.

Lemma never_raises_only_Exceptions {A : Type} (m : M A) :
  never_raises m -> only_Exceptions m.
Proof.
  intros Hm w ex w' H. destruct (Hm w) as (a & w1 & E).
  rewrite E in H. discriminate H.
Qed.

Lemma never_raises_ret {A : Type} (a : A) : never_raises (ret a).
Proof. intros w. now exists a, w. Qed.

Lemma never_raises_bind {A B : Type} (m : M A) (k : A -> M B) :
  never_raises m -> (forall a, never_raises (k a)) -> never_raises (bind m k).
Proof.
  intros Hm Hk w. destruct (Hm w) as (a & w1 & E).
  destruct (Hk a w1) as (b & w2 & E2).
  exists b, w2. now rewrite (bind_val _ _ _ _ _ E).
Qed.

(** [except Exception] leaves nothing to escape from a body that raises
    only [Exception]s, if the handler itself returns. *)
Lemma try_except_never_raises {A : Type} (body : M A) (handler : exn -> M A) :
  only_Exceptions body -> (forall ex, never_raises (handler ex)) ->
  never_raises (try_except body handler).
Proof.
  intros Hb Hh w. unfold try_except.
  destruct (body w) as [[a | ex] w1] eqn:E.
  - now exists a, w1.
  - rewrite (Hb w ex w1 E). apply Hh.
Qed.

Lemma print_never_raises (line : pystr) : never_raises (print line).
Proof. intros w. unfold print. eauto. Qed.

(** ** The file operations *)

Lemma os_makedirs_only_Exceptions (e : env) (p : pystr) :
  only_Exceptions (os_makedirs e p).
Proof.
  intros w ex w' H. unfold os_makedirs in H.
  destruct (fault e (OpMakedirs p)); [now inversion H |].
  destruct (files w !! p); now inversion H.
Qed.

Lemma os_utime_only_Exceptions (e : env) (p : pystr) :
  only_Exceptions (os_utime e p).
Proof.
  intros w ex w' H. unfold os_utime in H.
  destruct (fault e (OpUtime p)); [now inversion H |].
  destruct (files w !! p); [discriminate H |].
  destruct (bool_decide (p ∈ dirs w)); now inversion H.
Qed.

Lemma py_open_only_Exceptions (e : env) (p : pystr) (mode : open_mode) :
  only_Exceptions (py_open e p mode).
Proof.
  intros w ex w' H. unfold py_open in H.
  destruct (fault e (OpOpen p mode)); [now inversion H |].
  destruct (bool_decide (p ∈ dirs w)); [now inversion H |].
  destruct mode, (files w !! p); now inversion H.
Qed.

Lemma f_write_only_Exceptions (e : env) (p data : pystr) :
  only_Exceptions (f_write e p data).
Proof.
  intros w ex w' H. unfold f_write in H.
  destruct (fault e (OpWrite p data)); now inversion H.
Qed.

Lemma f_writelines_only_Exceptions (e : env) (p : pystr) (lines : list pystr) :
  only_Exceptions (f_writelines e p lines).
Proof.
  induction lines as [| l rest IH]; simpl.
  - apply only_Exceptions_ret.
  - apply only_Exceptions_bind; [apply f_write_only_Exceptions | intros _; exact IH].
Qed.

Lemma f_read_only_Exceptions (e : env) (p : pystr) :
  only_Exceptions (f_read e p).
Proof.
  intros w ex w' H. unfold f_read in H.
  destruct (fault e (OpRead p)); now inversion H.
Qed.

Lemma os_path_exists_never_raises (p : pystr) : never_raises (os_path_exists p).
Proof. intros w. unfold os_path_exists. eauto. Qed.

Lemma text_of_lookup (w : world) (p : pystr) (f : file) :
  files w !! p = Some f -> text_of w p = content f.
Proof. intros H. unfold text_of. now rewrite H. Qed.

(** A write changes the file written to and nothing else. *)
Lemma f_write_frame (e : env) (p data : pystr) (w w' : world) (r : outcome unit) :
  f_write e p data w = (r, w') ->
  dirs w' = dirs w /\ stdout w' = stdout w /\
  (forall q, q ≠ p -> files w' !! q = files w !! q) /\
  (exists d, files w' !! p
             = Some {| content := text_of w p ++ d; mtime := clock e |}) /\
  (r = Val tt ->
   files w' !! p = Some {| content := text_of w p ++ data; mtime := clock e |}).
Proof.
  unfold f_write. intros H.
  destruct (fault e (OpWrite p data)) as [msg |]; inversion H; subst; clear H;
    simpl; repeat split; try (intros q Hq; now rewrite lookup_insert_ne);
    try (eexists; now rewrite lookup_insert_eq).
  - intros Hr. discriminate Hr.
  - intros _. now rewrite lookup_insert_eq.
Qed.

Lemma f_writelines_frame (e : env) (p : pystr) (lines : list pystr)
    (w w' : world) (r : outcome unit) :
  f_writelines e p lines w = (r, w') ->
  dirs w' = dirs w /\ stdout w' = stdout w /\
  (forall q, q ≠ p -> files w' !! q = files w !! q).
Proof.
  revert w. induction lines as [| l rest IH]; intros w H; simpl in H.
  - inversion H; subst. auto.
  - unfold bind in H. destruct (f_write e p l w) as [[[] | ex] w1] eqn:E.
    + destruct (f_write_frame _ _ _ _ _ _ E) as (Hd & Hs & Hf & _).
      destruct (IH _ H) as (Hd' & Hs' & Hf').
      repeat split; [congruence | congruence |].
      intros q Hq. rewrite (Hf' q Hq). now apply Hf.
    + inversion H; subst.
      destruct (f_write_frame _ _ _ _ _ _ E) as (Hd & Hs & Hf & _). auto.
Qed.

(** When [writelines] returns, every line has reached the file, in order. *)
Lemma f_writelines_val (e : env) (p : pystr) (lines : list pystr) (w w' : world) :
  f_writelines e p lines w = (Val tt, w') ->
  text_of w' p = text_of w p ++ concat lines.
Proof.
  revert w. induction lines as [| l rest IH]; intros w H; simpl in H.
  - inversion H; subst. simpl. now rewrite app_nil_r.
  - unfold bind in H. destruct (f_write e p l w) as [[[] | ex] w1] eqn:E;
      [| discriminate H].
    destruct (f_write_frame _ _ _ _ _ _ E) as (_ & _ & _ & _ & Hp).
    specialize (Hp eq_refl).
    rewrite (IH _ H). rewrite (text_of_lookup _ _ _ Hp). simpl.
    now rewrite <- app_assoc.
Qed.

(** With nothing refused, [writelines] returns. *)
Lemma f_writelines_ok (e : env) (p : pystr) (lines : list pystr) (w : world) :
  (forall l, l ∈ lines -> fault e (OpWrite p l) = None) ->
  exists w', f_writelines e p lines w = (Val tt, w').
Proof.
  revert w. induction lines as [| l rest IH]; intros w Hf; simpl.
  - now exists w.
  - unfold bind, f_write at 1. rewrite (Hf l) by (left).
    apply IH. intros l' Hl'. apply Hf. now right.
Qed.

(** Opening a file changes at most that file, and not its text unless the
    mode is [w]. *)
Lemma py_open_frame (e : env) (p : pystr) (mode : open_mode) (w w' : world)
    (r : outcome unit) :
  py_open e p mode w = (r, w') ->
  dirs w' = dirs w /\ stdout w' = stdout w /\
  (forall q, q ≠ p -> files w' !! q = files w !! q) /\
  (mode ≠ ModeW -> text_of w' p = text_of w p) /\
  (forall ex, r = Raise ex -> w' = w) /\
  (mode = ModeR -> w' = w).
Proof.
  unfold py_open. intros H.
  destruct (fault e (OpOpen p mode)) as [msg |];
    [inversion H; subst; repeat split; auto |].
  destruct (bool_decide (p ∈ dirs w));
    [inversion H; subst; repeat split; auto |].
  destruct mode, (files w !! p) as [f |] eqn:Ef; inversion H; subst; clear H;
    simpl; repeat split; auto;
    try (intros q Hq; now rewrite lookup_insert_ne);
    try (intros ex Hex; discriminate Hex);
    try (intros Hm; try discriminate Hm; try (now contradiction Hm));
    try (unfold text_of; simpl; rewrite lookup_insert_eq, ?Ef; reflexivity).
Qed.

(** [open(p, "a")] succeeds unless the system refuses it or [p] is a
    directory. *)
Lemma py_open_append_ok (e : env) (p : pystr) (w : world) :
  fault e (OpOpen p ModeA) = None -> p ∉ dirs w ->
  exists w', py_open e p ModeA w = (Val tt, w').
Proof.
  intros Hf Hd. unfold py_open. rewrite Hf.
  rewrite bool_decide_eq_false_2 by exact Hd.
  destruct (files w !! p); eauto.
Qed.

(** ** The paths of the module *)

Lemma test_suites_path_eq (root : pystr) :
  test_suites_path root = root_prefix root ++ u "test_suites.md".
Proof.
  unfold test_suites_path, path_join, root_prefix. simpl. unfold join_step.
  change (startswith (u "test_suites.md") [SEP]) with false. cbv iota.
  destruct (bool_decide (root = []) || endswith root [SEP]);
    [reflexivity | now rewrite <- app_assoc].
Qed.

Lemma reports_dir_eq (root : pystr) :
  reports_dir root = root_prefix root ++ u "test_reports".
Proof.
  unfold reports_dir, path_join, root_prefix. simpl. unfold join_step.
  change (startswith (u "test_reports") [SEP]) with false. cbv iota.
  destruct (bool_decide (root = []) || endswith root [SEP]);
    [reflexivity | now rewrite <- app_assoc].
Qed.

Lemma results_path_eq (root : pystr) :
  results_path root = root_prefix root ++ u "test_reports/results.md".
Proof.
  change (results_path root)
    with (join_step (reports_dir root) (u "results.md")).
  rewrite reports_dir_eq. unfold join_step.
  change (startswith (u "results.md") [SEP]) with false. cbv iota.
  assert (Hne : bool_decide (root_prefix root ++ u "test_reports" = []) = false).
  { apply bool_decide_eq_false_2. intros H. apply app_eq_nil in H.
    destruct H as [_ H]. discriminate H. }
  assert (Hend : endswith (root_prefix root ++ u "test_reports") [SEP] = false).
  { unfold endswith. rewrite rev_app_distr. reflexivity. }
  rewrite Hne, Hend. simpl. rewrite <- app_assoc. reflexivity.
Qed.

Lemma results_path_not_test_suites (root : pystr) :
  results_path root ≠ test_suites_path root.
Proof.
  rewrite results_path_eq, test_suites_path_eq. intros H.
  apply app_inv_head in H. discriminate H.
Qed.

Lemma results_path_not_reports_dir (root : pystr) :
  results_path root ≠ reports_dir root.
Proof.
  rewrite results_path_eq, reports_dir_eq. intros H.
  apply app_inv_head in H. discriminate H.
Qed.


Lemma isabs_inv (p : pystr) : isabs p = true -> exists r, p = SEP :: r.
Proof.
  destruct p as [| c r]; unfold isabs, startswith; cbn [strip_prefix];
    [intros H; discriminate H |].
  destruct (N.eqb_spec SEP c) as [<- | Hne];
    [intros _; now exists r | intros H; discriminate H].
Qed.

(** The default paths are absolute when [repo_root()] is. *)
Lemma results_path_isabs (root : pystr) :
  isabs root = true -> isabs (results_path root) = true.
Proof.
  intros H. destruct (isabs_inv _ H) as [r ->].
  rewrite results_path_eq. unfold root_prefix.
  destruct (bool_decide (SEP :: r = []) || endswith (SEP :: r) [SEP]); reflexivity.
Qed.

(** ** Decoding and formatting raise only [Exception]s *)

Lemma py_get_raises (v : json) (k : pystr) (d : json) (ex : exn) :
  py_get v k d = Raise ex -> ex = AttributeError (type_name v).
Proof.
  destruct v; simpl; intros H; try (now inversion H).
  destruct (dict_lookup members k); discriminate H.
Qed.

Lemma py_get_dict (d : list (pystr * json)) (k : pystr) (default : json) :
  py_get (JObj d) k default = Val (default_of (dict_lookup d k) default).
Proof. simpl. unfold default_of. now destruct (dict_lookup d k). Qed.

Lemma py_iter_raises (v : json) (ex : exn) :
  py_iter v = Raise ex -> ex = TypeError (type_name v).
Proof. destruct v; simpl; intros H; now inversion H. Qed.

Lemma checks_loop_raises (rt : runtime) (cs : list json) (lines : list pystr)
    (ex : exn) :
  checks_loop rt cs lines = Raise ex -> exists ty, ex = AttributeError ty.
Proof.
  revert lines. induction cs as [| c cs IH]; intros lines H; simpl in H;
    [discriminate H |].
  destruct (py_get c (u "ok") JNull) eqn:E1;
    [| apply py_get_raises in E1; inversion H; subst; eauto].
  destruct (py_get c (u "name") (JStr [])) eqn:E2;
    [| apply py_get_raises in E2; inversion H; subst; eauto].
  destruct (py_get c (u "details") (JStr [])) eqn:E3;
    [| apply py_get_raises in E3; inversion H; subst; eauto].
  exact (IH _ H).
Qed.

Lemma block_lines_raises (rt : runtime) (name doc when : pystr) (ex : exn) :
  block_lines rt name doc when = Raise ex -> is_Exception ex = true.
Proof.
  unfold block_lines, loads. intros H.
  destruct (json_loads doc) as [obj |]; [| now inversion H].
  destruct (py_get obj (u "status") (JStr (u "UNKNOWN"))) as [status | e0] eqn:E0;
    [| apply py_get_raises in E0; inversion H; now subst].
  destruct (py_get obj (u "checks") (JArr [])) as [checks | e1] eqn:E1;
    [| apply py_get_raises in E1; inversion H; now subst].
  destruct (py_get obj (u "artifacts") (JObj [])) as [artifacts | e2] eqn:E2;
    [| apply py_get_raises in E2; inversion H; now subst].
  destruct (py_get artifacts (u "url") (JStr [])) as [url | e3] eqn:E3;
    [| apply py_get_raises in E3; inversion H; now subst].
  destruct (py_get artifacts (u "title") (JStr [])) as [title | e4] eqn:E4;
    [| apply py_get_raises in E4; inversion H; now subst].
  destruct (py_iter checks) as [cs | e5] eqn:E5;
    [| apply py_iter_raises in E5; inversion H; now subst].
  destruct (checks_loop rt cs _) as [lines | e6] eqn:E6; [discriminate H |].
  apply checks_loop_raises in E6. destruct E6 as [ty ->]. now inversion H.
Qed.

(** ** [ensure_reports_dir] and [generate_test_suites_file] *)

Section AgentLemmas.

Variable rt : runtime.
Variable repo_root : pystr.

Lemma ensure_reports_dir_only_Exceptions (e : env) :
  only_Exceptions (ensure_reports_dir repo_root e).
Proof.
  unfold ensure_reports_dir. apply only_Exceptions_bind.
  - apply os_makedirs_only_Exceptions.
  - intros _. apply only_Exceptions_ret.
Qed.

(** [ensure_reports_dir] either returns, having added the directory, or
    raises and changes nothing. *)
Lemma ensure_reports_dir_cases (e : env) (w : world) :
  (fault e (OpMakedirs (reports_dir repo_root)) = None /\
   files w !! reports_dir repo_root = None /\
   ensure_reports_dir repo_root e w
   = (Val (reports_dir repo_root),
      set_dirs w ({[reports_dir repo_root]} ∪ dirs w)))
  \/ (exists ex, is_Exception ex = true /\
                 ensure_reports_dir repo_root e w = (Raise ex, w)).
Proof.
  unfold ensure_reports_dir, bind, os_makedirs. fold (reports_dir repo_root).
  destruct (fault e (OpMakedirs (reports_dir repo_root))) as [msg |].
  - right. now exists (OSError msg).
  - destruct (files w !! reports_dir repo_root) as [f |] eqn:Ef.
    + right. now exists (FileExistsError (reports_dir repo_root)).
    + left. auto.
Qed.

Lemma os_utime_frame (e : env) (p : pystr) (w w' : world) (r : outcome unit) :
  os_utime e p w = (r, w') ->
  dirs w' = dirs w /\ stdout w' = stdout w /\
  (forall q, q ≠ p -> files w' !! q = files w !! q) /\
  (forall f, files w !! p = Some f ->
     exists t, files w' !! p = Some {| content := content f; mtime := t |}).
Proof.
  unfold os_utime. intros H.
  destruct (fault e (OpUtime p)) as [msg |].
  { inversion H; subst. repeat split; auto.
    intros f Hf. exists (mtime f). rewrite Hf. now destruct f. }
  destruct (files w !! p) as [f |] eqn:Ef.
  - inversion H; subst. simpl. repeat split; auto.
    + intros q Hq. now rewrite lookup_insert_ne.
    + intros f0 Hf0. inversion Hf0; subst. exists (clock e).
      now rewrite lookup_insert_eq.
  - destruct (bool_decide (p ∈ dirs w)); inversion H; subst;
      repeat split; auto; intros f Hf; discriminate Hf.
Qed.

Lemma generate_test_suites_file_never_raises (e : env) :
  never_raises (generate_test_suites_file rt repo_root e).
Proof.
  unfold generate_test_suites_file. apply try_except_never_raises.
  - apply only_Exceptions_bind.
    + apply never_raises_only_Exceptions, os_path_exists_never_raises.
    + intros [|].
      * apply only_Exceptions_bind; [apply os_utime_only_Exceptions |].
        intros _. apply only_Exceptions_ret.
      * apply only_Exceptions_bind; [apply py_open_only_Exceptions |].
        intros _. apply only_Exceptions_bind; [apply f_write_only_Exceptions |].
        intros _. apply only_Exceptions_ret.
  - intros ex. apply never_raises_bind; [apply print_never_raises |].
    intros _. apply never_raises_ret.
Qed.

(** [generate_test_suites_file] touches no directory and no file but
    [test_suites.md], and keeps the text of a [test_suites.md] it finds. *)
Lemma generate_test_suites_file_frame (e : env) (w w' : world)
    (r : outcome (option pystr)) :
  generate_test_suites_file rt repo_root e w = (r, w') ->
  dirs w' = dirs w /\
  (forall q, q ≠ test_suites_path repo_root -> files w' !! q = files w !! q) /\
  (forall f, files w !! test_suites_path repo_root = Some f ->
     exists t, files w' !! test_suites_path repo_root
               = Some {| content := content f; mtime := t |}).
Proof.
  unfold generate_test_suites_file, try_except, bind, os_path_exists, ret, print.
  set (cat := test_suites_path repo_root).
  destruct (path_exists w cat) eqn:Ex.
  - destruct (os_utime e cat w) as [[[] | ex] w1] eqn:Eu;
      destruct (os_utime_frame _ _ _ _ _ Eu) as (Hd & _ & Hf & Hc);
      [| destruct (is_Exception ex)]; intros H; inversion H; subst; simpl; auto.
  - assert (Hnone : files w !! cat = None).
    { unfold path_exists in Ex. apply orb_false_iff in Ex. destruct Ex as [Ex _].
      apply bool_decide_eq_false_1 in Ex.
      destruct (files w !! cat) eqn:El; [| reflexivity].
      exfalso. apply Ex. eauto. }
    destruct (py_open e cat ModeW w) as [[[] | ex] w1] eqn:Eo;
      destruct (py_open_frame _ _ _ _ _ _ Eo) as (Hd & _ & Hf & _ & _ & _).
    + destruct (f_write e cat STUB w1) as [[[] | ex] w2] eqn:Ew;
        destruct (f_write_frame _ _ _ _ _ _ Ew) as (Hd2 & _ & Hf2 & _ & _);
        [| destruct (is_Exception ex)]; intros H; inversion H; subst; simpl;
        (split; [congruence |]);
        (split; [intros q Hq; rewrite (Hf2 q Hq); now apply Hf |]);
        intros f Hcat; rewrite Hnone in Hcat; discriminate Hcat.
    + destruct (is_Exception ex); intros H; inversion H; subst; simpl;
        (split; [congruence |]); (split; [exact Hf |]);
        intros f Hcat; rewrite Hnone in Hcat; discriminate Hcat.
Qed.



End AgentLemmas.

(** ** [write_report], step by step *)

Section WriteReport.

Variable rt : runtime.
Variable repo_root : pystr.

(** The body of the [try] decodes and formats before it opens the file:
    it is the directory step, the catalog step, the pure [block_lines], and
    the append. *)
Lemma write_report_body_eq (e : env) (name doc : pystr) (rf : option pystr) :
  forall w,
  write_report_body rt repo_root e name doc rf w
  = (ensure_reports_dir repo_root e ;;
     generate_test_suites_file rt repo_root e ;;
     lines <- lift (block_lines rt name doc (strftime (now e))) ;;
     py_open e (report_path repo_root rf) ModeA ;;
     f_writelines e (report_path repo_root rf) lines ;;
     ret (ROk (report_path repo_root rf))) w.
Proof.
  intros w. unfold write_report_body, block_lines, bind, lift.
  destruct (ensure_reports_dir repo_root e w) as [[d | ex] w1]; [| reflexivity].
  destruct (generate_test_suites_file rt repo_root e w1) as [[o | ex] w2];
    [| reflexivity].
  destruct (loads doc) as [obj | ex]; [| reflexivity].
  destruct (py_get obj (u "status") (JStr (u "UNKNOWN"))); [| reflexivity].
  destruct (py_get obj (u "checks") (JArr [])); [| reflexivity].
  destruct (py_get obj (u "artifacts") (JObj [])) as [artifacts |]; [| reflexivity].
  destruct (py_get artifacts (u "url") (JStr [])); [| reflexivity].
  destruct (py_get artifacts (u "title") (JStr [])); [| reflexivity].
  destruct (py_iter _); [| reflexivity].
  destruct (checks_loop rt _ _); reflexivity.
Qed.

Lemma write_report_eq (e : env) (name doc : pystr) (rf : option pystr) (w : world) :
  write_report rt repo_root e name doc rf w
  = write_report_steps rt repo_root e name doc rf w.
Proof.
  unfold write_report, try_except, write_report_steps.
  rewrite write_report_body_eq. unfold bind at 1.
  destruct (ensure_reports_dir repo_root e w) as [[d | ex] w1] eqn:Ee.
  2:{ now rewrite (ensure_reports_dir_only_Exceptions _ _ _ _ _ Ee). }
  unfold bind at 1.
  destruct (generate_test_suites_file_never_raises rt repo_root e w1)
    as (o & w2 & Eg).
  rewrite Eg. simpl snd. unfold bind at 1, lift.
  destruct (block_lines rt name doc (strftime (now e))) as [lines | ex] eqn:Eb.
  2:{ now rewrite (block_lines_raises _ _ _ _ _ Eb). }
  unfold bind at 1.
  destruct (py_open e (report_path repo_root rf) ModeA w2) as [[[] | ex] w3] eqn:Eo.
  2:{ now rewrite (py_open_only_Exceptions _ _ _ _ _ _ Eo). }
  unfold bind, ret.
  destruct (f_writelines e (report_path repo_root rf) lines w3)
    as [[[] | ex] w4] eqn:Ew.
  - reflexivity.
  - now rewrite (f_writelines_only_Exceptions _ _ _ _ _ _ Ew).
Qed.

End WriteReport.

(** ** The block of a verdict *)

Lemma checks_loop_dicts (rt : runtime) (cs : list json) (lines : list pystr) :
  forallb is_dict cs = true ->
  checks_loop rt cs lines = Val (lines ++ map (check_line_of rt) cs).
Proof.
  revert lines. induction cs as [| c cs IH]; intros lines H;
    cbn [checks_loop map].
  - now rewrite app_nil_r.
  - simpl in H. apply andb_true_iff in H. destruct H as [Hc Hcs].
    destruct c; try discriminate Hc. rewrite !py_get_dict.
    rewrite (IH _ Hcs). cbn [check_line_of]. now rewrite <- app_assoc.
Qed.

Lemma checks_loop_not_dicts (rt : runtime) (cs : list json) (lines : list pystr) :
  forallb is_dict cs = false ->
  exists ty, checks_loop rt cs lines = Raise (AttributeError ty).
Proof.
  revert lines. induction cs as [| c cs IH]; intros lines H; simpl in H;
    [discriminate H |].
  destruct (is_dict c) eqn:Ec.
  - destruct c; try discriminate Ec. simpl in H.
    cbn [checks_loop]. rewrite !py_get_dict. apply IH, H.
  - destruct c; try discriminate Ec; simpl; eauto.
Qed.


(** A well-shaped verdict gives its block, whatever is missing from it. *)
Lemma block_lines_well_shaped (rt : runtime) (name doc when : pystr) (v : json) :
  json_loads doc = Some v -> well_shaped v = true ->
  exists d, v = JObj d /\
            block_lines rt name doc when = Val (verdict_lines rt name d when).
Proof.
  intros Hl Hs. destruct v as [| | | | | | d]; try discriminate Hs.
  exists d. split; [reflexivity |].
  unfold block_lines, loads. rewrite Hl. rewrite !py_get_dict.
  unfold verdict_lines, status_of, artifact_of, checks_of.
  simpl in Hs. apply andb_true_iff in Hs. destruct Hs as [Ha Hc].
  assert (Hart : exists a, default_of (dict_lookup d (u "artifacts")) (JObj [])
                           = JObj a).
  { destruct (dict_lookup d (u "artifacts")) as [a |]; simpl; [| eauto].
    destruct a; try discriminate Ha. eauto. }
  destruct Hart as [a Ea]. rewrite Ea. rewrite !py_get_dict.
  assert (Hit : exists cs,
            py_iter (default_of (dict_lookup d (u "checks")) (JArr [])) = Val cs
            /\ forallb is_dict cs = true).
  { destruct (dict_lookup d (u "checks")) as [c |]; simpl; [| eauto].
    destruct (py_iter c) as [cs |]; [eauto | discriminate Hc]. }
  destruct Hit as (cs & Ecs & Hcs). rewrite Ecs.
  rewrite (checks_loop_dicts _ _ _ Hcs). now rewrite <- app_assoc.
Qed.

(** Only a well-shaped verdict gives a block. *)
Lemma block_lines_val_inv (rt : runtime) (name doc when : pystr)
    (lines : list pystr) :
  block_lines rt name doc when = Val lines ->
  exists v, json_loads doc = Some v /\ well_shaped v = true.
Proof.
  unfold block_lines, loads. intros H.
  destruct (json_loads doc) as [obj |]; [| discriminate H].
  exists obj. split; [reflexivity |].
  destruct obj as [| | | | | | d]; try discriminate H.
  rewrite !py_get_dict in H. cbn [well_shaped].
  destruct (dict_lookup d (u "artifacts")) as [a |]; cbn [default_of] in H.
  - destruct a as [| | | | | | ad]; try discriminate H.
    rewrite !py_get_dict in H. cbn [is_dict andb].
    destruct (dict_lookup d (u "checks")) as [c |]; cbn [default_of] in H;
      [| reflexivity].
    destruct (py_iter c) as [cs | ex]; [| discriminate H].
    destruct (forallb is_dict cs) eqn:Ecs; [reflexivity |].
    destruct (checks_loop_not_dicts rt cs
                (head_lines rt name
                   (default_of (dict_lookup d (u "status")) (JStr (u "UNKNOWN")))
                   when
                   (default_of (dict_lookup ad (u "url")) (JStr []))
                   (default_of (dict_lookup ad (u "title")) (JStr [])))
                Ecs) as [ty Ety].
    rewrite Ety in H. discriminate H.
  - rewrite !py_get_dict in H. cbn [andb].
    destruct (dict_lookup d (u "checks")) as [c |]; cbn [default_of] in H;
      [| reflexivity].
    destruct (py_iter c) as [cs | ex]; [| discriminate H].
    destruct (forallb is_dict cs) eqn:Ecs; [reflexivity |].
    destruct (checks_loop_not_dicts rt cs
                (head_lines rt name
                   (default_of (dict_lookup d (u "status")) (JStr (u "UNKNOWN")))
                   when
                   (default_of (dict_lookup [] (u "url")) (JStr []))
                   (default_of (dict_lookup [] (u "title")) (JStr [])))
                Ecs) as [ty Ety].
    rewrite Ety in H. discriminate H.
Qed.


(** ** What a call leaves behind *)

Section Outcomes.

Variable rt : runtime.
Variable repo_root : pystr.

Lemma bootstrap_snd (e : env) (w w1 : world) (d : pystr) :
  ensure_reports_dir repo_root e w = (Val d, w1) ->
  snd (bootstrap rt repo_root e w)
  = snd (generate_test_suites_file rt repo_root e w1).
Proof.
  intros He. unfold bootstrap, bind. rewrite He.
  destruct (generate_test_suites_file_never_raises rt repo_root e w1)
    as (o & w2 & Eg).
  now rewrite Eg.
Qed.

(** The two steps before decoding change no file but [test_suites.md]. *)
Lemma bootstrap_files (e : env) (w : world) (q : pystr) :
  q ≠ test_suites_path repo_root ->
  files (snd (bootstrap rt repo_root e w)) !! q = files w !! q.
Proof.
  intros Hq.
  destruct (ensure_reports_dir_cases repo_root e w)
    as [(_ & _ & He) | (ex & _ & He)].
  - rewrite (bootstrap_snd _ _ _ _ He).
    destruct (generate_test_suites_file rt repo_root e
                (set_dirs w ({[reports_dir repo_root]} ∪ dirs w)))
      as [r w2] eqn:Eg.
    destruct (generate_test_suites_file_frame _ _ _ _ _ _ Eg) as (_ & Hf & _).
    simpl. now rewrite (Hf q Hq).
  - unfold bootstrap, bind. now rewrite He.
Qed.

Lemma bootstrap_text (e : env) (w : world) (q : pystr) :
  q ≠ test_suites_path repo_root ->
  text_of (snd (bootstrap rt repo_root e w)) q = text_of w q.
Proof. intros Hq. unfold text_of. now rewrite bootstrap_files. Qed.


(** A call that returns the success dict has decoded a well-shaped verdict
    and has appended its whole block to the report path, after the two
    steps that come first; no other file has changed since then. *)
Lemma write_report_ok_inv (e : env) (name doc : pystr) (rf : option pystr)
    (w w' : world) (p : pystr) :
  write_report rt repo_root e name doc rf w = (Val (ROk p), w') ->
  p = report_path repo_root rf /\
  exists d,
    json_loads doc = Some (JObj d) /\ well_shaped (JObj d) = true /\
    block_lines rt name doc (strftime (now e))
    = Val (verdict_lines rt name d (strftime (now e))) /\
    text_of w' p
    = text_of (snd (bootstrap rt repo_root e w)) p
      ++ concat (verdict_lines rt name d (strftime (now e))) /\
    (forall q, q ≠ p ->
       files w' !! q = files (snd (bootstrap rt repo_root e w)) !! q).
Proof.
  rewrite write_report_eq. unfold write_report_steps.
  destruct (ensure_reports_dir repo_root e w) as [[dir | ex] w1] eqn:Ee;
    [| intros H; discriminate H].
  rewrite (bootstrap_snd _ _ _ _ Ee).
  set (w2 := snd (generate_test_suites_file rt repo_root e w1)).
  destruct (block_lines rt name doc (strftime (now e))) as [lines | ex] eqn:Eb;
    [| intros H; discriminate H].
  destruct (py_open e (report_path repo_root rf) ModeA w2) as [[[] | ex] w3] eqn:Eo;
    [| intros H; discriminate H].
  destruct (f_writelines e (report_path repo_root rf) lines w3)
    as [[[] | ex] w4] eqn:Ew; [| intros H; discriminate H].
  intros H. inversion H; subst. split; [reflexivity |].
  destruct (block_lines_val_inv _ _ _ _ _ Eb) as (v & Hl & Hs).
  destruct (block_lines_well_shaped rt name doc (strftime (now e)) v Hl Hs)
    as (d & -> & Hd).
  rewrite Eb in Hd. inversion Hd; subst.
  exists d. repeat split; auto.
  - rewrite (f_writelines_val _ _ _ _ _ Ew).
    destruct (py_open_frame _ _ _ _ _ _ Eo) as (_ & _ & _ & Ht & _).
    rewrite Ht by discriminate. reflexivity.
  - intros q Hq.
    destruct (f_writelines_frame _ _ _ _ _ _ Ew) as (_ & _ & Hf).
    destruct (py_open_frame _ _ _ _ _ _ Eo) as (_ & _ & Hf' & _).
    rewrite (Hf q Hq). now apply Hf'.
Qed.


(** When the system lets the call through, a verdict that can be formatted
    is appended and the call returns the success dict. *)
Lemma write_report_ready (e : env) (name doc : pystr) (rf : option pystr)
    (w : world) (lines : list pystr) :
  io_ready repo_root rf e w ->
  block_lines rt name doc (strftime (now e)) = Val lines ->
  exists w', write_report rt repo_root e name doc rf w
             = (Val (ROk (report_path repo_root rf)), w').
Proof.
  intros (Hnf & Hfile & Hdir & Hne) Hb.
  rewrite write_report_eq. unfold write_report_steps.
  destruct (ensure_reports_dir_cases repo_root e w)
    as [(_ & _ & He) | (ex & _ & He)].
  2:{ exfalso. unfold ensure_reports_dir, bind, os_makedirs in He.
      fold (reports_dir repo_root) in He.
      rewrite (Hnf _), Hfile in He. discriminate He. }
  rewrite He, Hb.
  destruct (generate_test_suites_file rt repo_root e
              (set_dirs w ({[reports_dir repo_root]} ∪ dirs w)))
    as [r w2] eqn:Eg.
  destruct (generate_test_suites_file_frame _ _ _ _ _ _ Eg) as (Hd2 & _ & _).
  simpl snd.
  destruct (py_open_append_ok e (report_path repo_root rf) w2 (Hnf _))
    as [w3 Eo].
  { rewrite Hd2. simpl. intros Hin. apply elem_of_union in Hin.
    destruct Hin as [Hin | Hin]; [| contradiction].
    apply elem_of_singleton in Hin. contradiction. }
  rewrite Eo.
  destruct (f_writelines_ok e (report_path repo_root rf) lines w3) as [w4 Ew].
  { intros l _. apply Hnf. }
  rewrite Ew. eauto.
Qed.

End Outcomes.

(** * The claims *)

Section Claims.

Variable rt : runtime.
Variable repo_root : pystr.

(** C5.  Whatever the test name, the verdict text, the report path, the
    state of the file system and whatever the system refuses, [write_report]
    raises nothing: it returns a dict, either [{"ok": True, "path": ...}]
    or [{"ok": False, "error": ...}]. *)
Theorem write_report_never_raises (e : env) (test_name status_json : pystr)
    (report_file : option pystr) (w : world) :
  exists r w',
    write_report rt repo_root e test_name status_json report_file w = (Val r, w')
    /\ ((exists path, r = ROk path) \/ (exists error, r = RErr error)).
Proof.
  assert (Hbody : only_Exceptions
                    (write_report_body rt repo_root e test_name status_json
                       report_file)).
  { intros w0 ex w1. rewrite write_report_body_eq. revert w0 ex w1.
    apply only_Exceptions_bind; [apply ensure_reports_dir_only_Exceptions |].
    intros _. apply only_Exceptions_bind.
    { apply never_raises_only_Exceptions,
        generate_test_suites_file_never_raises. }
    intros _. apply only_Exceptions_bind.
    { apply only_Exceptions_lift. intros ex. apply block_lines_raises. }
    intros lines. apply only_Exceptions_bind; [apply py_open_only_Exceptions |].
    intros _. apply only_Exceptions_bind;
      [apply f_writelines_only_Exceptions |].
    intros _. apply only_Exceptions_ret. }
  destruct (try_except_never_raises _
              (fun ex => ret (RErr (exc_str rt ex))) Hbody
              (fun ex => never_raises_ret _) w) as (r & w' & E).
  exists r, w'. split; [exact E |].
  destruct r as [path | error]; eauto.
Qed.


End Claims.

Lemma quiet_env_io_ready (t : Z) (rf : option pystr) :
  report_path example_root rf ≠ reports_dir example_root ->
  io_ready example_root rf (quiet_env t) empty_world.
Proof.
  intros Hne. unfold io_ready.
  split; [intros op; reflexivity |].
  split; [apply lookup_empty |].
  split; [apply not_elem_of_empty | exact Hne].
Qed.



Lemma status_text_eq (rt : runtime) (d : list (pystr * json)) :
  py_str rt (status_of d) = status_text rt d.
Proof.
  unfold status_of, status_text, default_of.
  now destruct (dict_lookup d (u "status")).
Qed.

(** The first line of a block is its heading. *)
Lemma verdict_lines_heading (rt : runtime) (name : pystr)
    (d : list (pystr * json)) (when : pystr) :
  concat (verdict_lines rt name d when)
  = heading name (status_text rt d)
    ++ concat (tail (verdict_lines rt name d when)).
Proof.
  unfold verdict_lines, head_lines. rewrite status_text_eq. reflexivity.
Qed.

Section ClaimsOneCall.

Variable rt : runtime.
Variable repo_root : pystr.

(** C2, as amended.  The heading of the block a successful call appends is
    [## <test_name> — <status>] where the status is [UNKNOWN] when the
    verdict has no [status] member and otherwise the text of whatever that
    member holds: a string is shown as it is ([PASS] as [PASS], [FAIL] as
    [FAIL], and any other string unchanged). *)
Theorem heading_shows_status_as_supplied (e : env)
    (test_name status_json : pystr) (report_file : option pystr)
    (w w' : world) (p : pystr) :
  write_report rt repo_root e test_name status_json report_file w
  = (Val (ROk p), w') ->
  exists d rest,
    json_loads status_json = Some (JObj d) /\
    text_of w' p
    = text_of (snd (bootstrap rt repo_root e w)) p
      ++ heading test_name (status_text rt d) ++ rest /\
    (dict_lookup d (u "status") = None -> status_text rt d = u "UNKNOWN") /\
    (forall s, dict_lookup d (u "status") = Some (JStr s) -> status_text rt d = s).
Proof.
  intros H. apply write_report_ok_inv in H.
  destruct H as (_ & d & Hl & _ & _ & Ht & _).
  exists d, (concat (tail (verdict_lines rt test_name d (strftime (now e))))).
  split; [exact Hl |]. split; [| split].
  - rewrite Ht. now rewrite verdict_lines_heading.
  - intros Hn. unfold status_text. now rewrite Hn.
  - intros s0 Hs. unfold status_text. now rewrite Hs.
Qed.


(** C9, as amended.  The path in the success dict is the report path the
    block was appended to: the [report_file] argument exactly as the caller
    gave it, or, when none was given, [results.md] under the reports
    directory, which is an absolute path when [repo_root()] is. *)
Theorem write_report_returns_report_file (e : env)
    (test_name status_json : pystr) (report_file : option pystr)
    (w w' : world) (p : pystr) :
  write_report rt repo_root e test_name status_json report_file w
  = (Val (ROk p), w') ->
  (forall q, report_file = Some q -> p = q) /\
  (report_file = None ->
   p = results_path repo_root /\ (isabs repo_root = true -> isabs p = true)) /\
  text_of w' p
  = text_of (snd (bootstrap rt repo_root e w)) p
    ++ block_text rt test_name status_json (strftime (now e)).
Proof.
  intros H. apply write_report_ok_inv in H.
  destruct H as (Hp & d & _ & _ & Hb & Ht & _).
  split; [| split].
  - intros q ->. exact Hp.
  - intros ->. split; [exact Hp |]. intros Ha. rewrite Hp.
    now apply results_path_isabs.
  - rewrite Ht. unfold block_text. now rewrite Hb.
Qed.

End ClaimsOneCall.

Section ClaimsReader.

Variable rt : runtime.
Variable repo_root : pystr.




End ClaimsReader.

(** *** The examples behind the amended claims *)

Lemma example_call_pair (doc : pystr) (rf : option pystr) (w : world) :
  write_report example_runtime example_root (quiet_env 100) T_name doc rf w
  = (fst (example_call doc rf w), snd (example_call doc rf w)).
Proof. unfold example_call. apply surjective_pairing. Qed.

Lemma example_call_skipped :
  write_report example_runtime example_root (quiet_env 100) T_name
    status_skipped_json None empty_world
  = (Val (ROk (results_path example_root)),
     snd (example_call status_skipped_json None empty_world)).
Proof. rewrite example_call_pair. f_equal. Qed.

Lemma example_call_relative :
  write_report example_runtime example_root (quiet_env 100) T_name
    empty_object_json (Some (u "out.md")) empty_world
  = (Val (ROk (u "out.md")),
     snd (example_call empty_object_json (Some (u "out.md")) empty_world)).
Proof. rewrite example_call_pair. f_equal. Qed.

(** C2, as stated, fails: the status [SKIPPED] is none of [PASS], [FAIL],
    [UNKNOWN], and the heading of the block shows it. *)
Lemma unrecognized_status_in_heading :
  fst (example_call status_skipped_json None empty_world)
  = Val (ROk (results_path example_root))
  /\ text_of (snd (example_call status_skipped_json None empty_world))
       (results_path example_root)
     = heading T_name (u "SKIPPED")
       ++ u "- When: 2024-03-09 14:05:00" ++ [LF]
       ++ u "- URL: " ++ [LF]
       ++ u "- Title: " ++ [LF]
       ++ u "- Checks:" ++ [LF]
       ++ SEPARATOR.
Proof. split; vm_compute; reflexivity. Qed.

Lemma heading_shows_status_as_supplied_witness :
  exists d rest,
    json_loads status_skipped_json = Some (JObj d) /\
    text_of (snd (example_call status_skipped_json None empty_world))
      (results_path example_root)
    = text_of
        (snd (bootstrap example_runtime example_root (quiet_env 100) empty_world))
        (results_path example_root)
      ++ heading T_name (status_text example_runtime d) ++ rest /\
    (dict_lookup d (u "status") = None ->
     status_text example_runtime d = u "UNKNOWN") /\
    (forall s, dict_lookup d (u "status") = Some (JStr s) ->
               status_text example_runtime d = s).
Proof.
  exact (heading_shows_status_as_supplied example_runtime example_root
           (quiet_env 100) T_name status_skipped_json None empty_world _ _
           example_call_skipped).
Defined.


(** C9, as stated, fails: called with the relative path [out.md], the
    function appends to that file and returns [out.md] itself, which is not
    an absolute path. *)
Lemma relative_report_file_returned_as_given :
  fst (example_call empty_object_json (Some (u "out.md")) empty_world)
  = Val (ROk (u "out.md"))
  /\ isabs (u "out.md") = false
  /\ text_of (snd (example_call empty_object_json (Some (u "out.md")) empty_world))
       (u "out.md")
     = block_text example_runtime T_name empty_object_json
         (strftime (now (quiet_env 100))).
Proof. repeat split; vm_compute; reflexivity. Qed.

Lemma write_report_returns_report_file_witness :
  (forall q, Some (u "out.md") = Some q -> u "out.md" = q) /\
  (Some (u "out.md") = None ->
   u "out.md" = results_path example_root
   /\ (isabs example_root = true -> isabs (u "out.md") = true)) /\
  text_of (snd (example_call empty_object_json (Some (u "out.md")) empty_world))
    (u "out.md")
  = text_of
      (snd (bootstrap example_runtime example_root (quiet_env 100) empty_world))
      (u "out.md")
    ++ block_text example_runtime T_name empty_object_json
         (strftime (now (quiet_env 100))).
Proof.
  exact (write_report_returns_report_file example_runtime example_root
           (quiet_env 100) T_name empty_object_json (Some (u "out.md"))
           empty_world _ _ example_call_relative).
Defined.


(** ** Frames of a call *)

Section Frames.

Variable rt : runtime.
Variable repo_root : pystr.

(** Whatever its outcome, a call changes no file after its first two steps
    but the one at its report path. *)
Lemma write_report_frame (e : env) (name doc : pystr) (rf : option pystr)
    (w : world) (q : pystr) :
  q ≠ report_path repo_root rf ->
  files (snd (write_report rt repo_root e name doc rf w)) !! q
  = files (snd (bootstrap rt repo_root e w)) !! q.
Proof.
  intros Hq. rewrite write_report_eq. unfold write_report_steps.
  destruct (ensure_reports_dir repo_root e w) as [[dir | ex] w1] eqn:Ee.
  2:{ unfold bootstrap, bind. now rewrite Ee. }
  rewrite (bootstrap_snd _ _ _ _ _ _ Ee).
  set (w2 := snd (generate_test_suites_file rt repo_root e w1)).
  destruct (block_lines rt name doc (strftime (now e))) as [lines | ex];
    [| reflexivity].
  destruct (py_open e (report_path repo_root rf) ModeA w2) as [[[] | ex] w3] eqn:Eo.
  - destruct (py_open_frame _ _ _ _ _ _ Eo) as (_ & _ & Hf & _).
    destruct (f_writelines e (report_path repo_root rf) lines w3)
      as [[[] | ex] w4] eqn:Ew;
      destruct (f_writelines_frame _ _ _ _ _ _ Ew) as (_ & _ & Hf');
      simpl; rewrite (Hf' q Hq); now apply Hf.
  - destruct (py_open_frame _ _ _ _ _ _ Eo) as (_ & _ & Hf & _).
    simpl. now apply Hf.
Qed.


(** A successful call that names a report path other than
    [test_suites.md] appends its block to what the file held before. *)
Lemma write_report_appends (e : env) (name doc : pystr) (rf : option pystr)
    (w w' : world) (p : pystr) :
  report_path repo_root rf ≠ test_suites_path repo_root ->
  write_report rt repo_root e name doc rf w = (Val (ROk p), w') ->
  text_of w' (report_path repo_root rf)
  = text_of w (report_path repo_root rf)
    ++ block_text rt name doc (strftime (now e)).
Proof.
  intros Hne H. apply write_report_ok_inv in H.
  destruct H as (-> & d & _ & _ & Hb & Ht & _).
  rewrite Ht. rewrite bootstrap_text by exact Hne.
  unfold block_text. now rewrite Hb.
Qed.


End Frames.

(** ** Calls one after the other *)




Section ClaimsStore.

Variable rt : runtime.
Variable repo_root : pystr.





End ClaimsStore.

(** *** The examples behind the amended claims on the store *)










(** ** A file with text is there *)


(** * More properties of the code *)

(** ** Appending, whatever the outcome *)

(** A write adds a prefix of its text to the file: all of it when it
    returns, what got through when it is refused. *)
Lemma f_write_prefix (e : env) (p data : pystr) (w w' : world) (r : outcome unit) :
  f_write e p data w = (r, w') ->
  exists pre,
    text_of w' p = text_of w p ++ pre /\ pre `prefix_of` data /\
    (r = Val tt -> pre = data) /\
    (fault e (OpWrite p data) = None -> r = Val tt).
Proof.
  unfold f_write. intros H.
  destruct (fault e (OpWrite p data)) as [msg |]; inversion H; subst; clear H.
  - exists (take (short_write e) data). split; [| split; [| split]].
    + unfold text_of at 1. simpl. now rewrite lookup_insert_eq.
    + apply prefix_take.
    + intros Hr. discriminate Hr.
    + intros Hr. discriminate Hr.
  - exists data. split; [| split; [| split]].
    + unfold text_of at 1. simpl. now rewrite lookup_insert_eq.
    + reflexivity.
    + reflexivity.
    + reflexivity.
Qed.

Lemma f_writelines_prefix (e : env) (p : pystr) (lines : list pystr)
    (w w' : world) (r : outcome unit) :
  f_writelines e p lines w = (r, w') ->
  exists pre,
    text_of w' p = text_of w p ++ pre /\ pre `prefix_of` concat lines /\
    (r = Val tt -> pre = concat lines) /\
    (writes_allowed e p -> r = Val tt).
Proof.
  revert w. induction lines as [| l rest IH]; intros w H; simpl in H.
  - inversion H; subst. exists []. rewrite app_nil_r.
    split; [reflexivity |]. split; [apply prefix_nil |].
    split; reflexivity.
  - unfold bind in H. destruct (f_write e p l w) as [[[] | ex] w1] eqn:E.
    + destruct (f_write_prefix _ _ _ _ _ _ E) as (pre1 & Ht1 & _ & Hv1 & _).
      rewrite (Hv1 eq_refl) in Ht1.
      destruct (IH _ H) as (pre & Ht & Hp & Hv & Ha).
      exists (l ++ pre). split; [| split; [| split]].
      * rewrite Ht, Ht1. now rewrite <- app_assoc.
      * simpl. now apply prefix_app.
      * intros Hr. simpl. now rewrite (Hv Hr).
      * exact Ha.
    + inversion H; subst.
      destruct (f_write_prefix _ _ _ _ _ _ E) as (pre1 & Ht1 & Hp1 & _ & Ha1).
      exists pre1. split; [| split; [| split]].
      * exact Ht1.
      * simpl. now apply prefix_app_r.
      * intros Hr. discriminate Hr.
      * intros Ha. specialize (Ha1 (Ha l)). discriminate Ha1.
Qed.

Section Growth.

Variable rt : runtime.
Variable repo_root : pystr.

(** What a call does to the text at its report path, whatever its outcome:
    it adds a prefix of its block, the whole block exactly when it returns
    the success dict and nothing when it fails without a refused write. *)
Lemma write_report_text (e : env) (name doc : pystr) (rf : option pystr)
    (w : world) :
  report_path repo_root rf ≠ test_suites_path repo_root ->
  exists pre,
    text_of (snd (write_report rt repo_root e name doc rf w))
      (report_path repo_root rf)
    = text_of w (report_path repo_root rf) ++ pre /\
    pre `prefix_of` block_text rt name doc (strftime (now e)) /\
    (is_ok (fst (write_report rt repo_root e name doc rf w)) = true ->
     pre = block_text rt name doc (strftime (now e))) /\
    (writes_allowed e (report_path repo_root rf) ->
     is_ok (fst (write_report rt repo_root e name doc rf w)) = false ->
     pre = []).
Proof.
  intros Hne. rewrite write_report_eq. unfold write_report_steps.
  destruct (ensure_reports_dir repo_root e w) as [[dir | ex] w1] eqn:Ee.
  2:{ destruct (ensure_reports_dir_cases repo_root e w)
        as [(_ & _ & He) | (ex' & _ & He)]; rewrite He in Ee;
        inversion Ee; subst.
      exists []. simpl. rewrite app_nil_r.
      split; [reflexivity |]. split; [apply prefix_nil |].
      split; [intros Hok; discriminate Hok | reflexivity]. }
  pose proof (bootstrap_text rt repo_root e w _ Hne) as Hbt.
  rewrite (bootstrap_snd _ _ _ _ _ _ Ee) in Hbt.
  set (w2 := snd (generate_test_suites_file rt repo_root e w1)) in *.
  unfold block_text.
  destruct (block_lines rt name doc (strftime (now e))) as [lines | ex].
  2:{ exists []. simpl. rewrite app_nil_r.
      split; [exact Hbt |]. split; [reflexivity |].
      split; [intros Hok; discriminate Hok | reflexivity]. }
  destruct (py_open e (report_path repo_root rf) ModeA w2) as [[[] | ex] w3] eqn:Eo;
    destruct (py_open_frame _ _ _ _ _ _ Eo) as (_ & _ & _ & Ht & _);
    specialize (Ht ltac:(discriminate)).
  2:{ exists []. simpl. rewrite app_nil_r.
      split; [congruence |]. split; [apply prefix_nil |].
      split; [intros Hok; discriminate Hok | reflexivity]. }
  destruct (f_writelines e (report_path repo_root rf) lines w3)
    as [[[] | ex] w4] eqn:Ew;
    destruct (f_writelines_prefix _ _ _ _ _ _ Ew) as (pre & Hpre & Hp & Hv & Ha).
  - exists pre. simpl. split; [congruence |]. split; [exact Hp |].
    split; [intros _; now apply Hv | intros _ Hok; discriminate Hok].
  - exists pre. simpl. split; [congruence |]. split; [exact Hp |].
    split; [intros Hok; discriminate Hok |].
    intros Hall _. specialize (Ha Hall). discriminate Ha.
Qed.

End Growth.

Section StoreProperties.

Variable rt : runtime.
Variable repo_root : pystr.


(** Whatever its arguments and its outcome, a call leaves at a path other
    than [test_suites.md] a text that starts with the text found there. *)
Lemma write_report_grows (e : env) (name doc : pystr) (rf : option pystr)
    (w : world) (p : pystr) :
  p ≠ test_suites_path repo_root ->
  text_of w p `prefix_of` text_of (snd (write_report rt repo_root e name doc rf w)) p.
Proof.
  intros Hne. destruct (decide (p = report_path repo_root rf)) as [-> | Hp].
  - destruct (write_report_text rt repo_root e name doc rf w Hne)
      as (pre & Ht & _).
    rewrite Ht. now apply prefix_app_r.
  - unfold text_of. rewrite write_report_frame by exact Hp.
    now rewrite bootstrap_files.
Qed.

(** X3.  The store is append-only whatever happens: through any sequence
    of calls, with any arguments, any outcomes and whatever the system
    refuses, the text of a file other than [test_suites.md] only grows at
    its end: what it held before is a prefix of what it holds after. *)
Theorem store_only_grows (cs : list call) (w : world) (p : pystr) :
  p ≠ test_suites_path repo_root ->
  text_of w p `prefix_of` text_of (snd (run_calls rt repo_root cs w)) p.
Proof.
  intros Hne. revert w. induction cs as [| c cs IH]; intros w.
  - reflexivity.
  - cbn [run_calls].
    pose proof (write_report_grows (call_env c) (call_name c) (call_json c)
                  (call_file c) w p Hne) as Hstep.
    destruct (write_report rt repo_root (call_env c) (call_name c)
                (call_json c) (call_file c) w) as [r w1].
    specialize (IH w1).
    destruct (run_calls rt repo_root cs w1) as [rs w2].
    simpl in *. now transitivity (text_of w1 p).
Qed.




(** X7.  When the reports directory cannot be made (the system refuses it,
    or a regular file has its name), the call returns the failure dict of
    that error, whatever the verdict text is, and has no effect at all: no
    file, no directory and no printed line changes, and [test_suites.md]
    is neither written nor touched. *)
Theorem no_reports_dir_no_effect (e : env) (test_name status_json : pystr)
    (report_file : option pystr) (w : world) :
  fault e (OpMakedirs (reports_dir repo_root)) ≠ None
  \/ files w !! reports_dir repo_root ≠ None ->
  exists ex,
    write_report rt repo_root e test_name status_json report_file w
    = (Val (RErr (exc_str rt ex)), w) /\
    (forall msg, fault e (OpMakedirs (reports_dir repo_root)) = Some msg ->
                 ex = OSError msg) /\
    (fault e (OpMakedirs (reports_dir repo_root)) = None ->
     ex = FileExistsError (reports_dir repo_root)).
Proof.
  intros H. rewrite write_report_eq. unfold write_report_steps.
  unfold ensure_reports_dir, bind, os_makedirs. fold (reports_dir repo_root).
  destruct (fault e (OpMakedirs (reports_dir repo_root))) as [msg |] eqn:Ef.
  - exists (OSError msg). split; [reflexivity |]. split.
    + intros msg' Hm. now inversion Hm.
    + intros Hn. discriminate Hn.
  - destruct (files w !! reports_dir repo_root) as [f |] eqn:El.
    + exists (FileExistsError (reports_dir repo_root)).
      split; [reflexivity |]. split; [intros msg Hm; discriminate Hm | reflexivity].
    + destruct H as [H | H]; now contradiction H.
Qed.


End StoreProperties.

(** ** The catalog file, the reports directory and the reader *)

Section BootstrapProperties.

Variable rt : runtime.
Variable repo_root : pystr.



(** X13.  [ensure_reports_dir] can be run again: after a run that returned,
    a second run that the system does not refuse returns the same path and
    changes nothing. *)
Theorem ensure_reports_dir_again (e e2 : env) (w w1 : world) (d : pystr) :
  ensure_reports_dir repo_root e w = (Val d, w1) ->
  fault e2 (OpMakedirs (reports_dir repo_root)) = None ->
  d = reports_dir repo_root /\
  reports_dir repo_root ∈ dirs w1 /\
  ensure_reports_dir repo_root e2 w1 = (Val d, w1).
Proof.
  intros He Hf2.
  destruct (ensure_reports_dir_cases repo_root e w)
    as [(_ & Hfile & He') | (ex & _ & He')]; rewrite He' in He;
    inversion He; subst; clear He.
  split; [reflexivity |]. split.
  - simpl. apply elem_of_union. left. now apply elem_of_singleton.
  - assert (Hset : ({[reports_dir repo_root]}
                    ∪ ({[reports_dir repo_root]} ∪ dirs w) : gset pystr)
                   = {[reports_dir repo_root]} ∪ dirs w)
      by (rewrite assoc_L by apply _; now rewrite union_idemp_L).
    unfold ensure_reports_dir, bind, os_makedirs.
    fold (reports_dir repo_root). rewrite Hf2. simpl. rewrite Hfile.
    unfold ret, set_dirs. simpl. now rewrite Hset.
Qed.

End BootstrapProperties.

Section ReaderProperties.

Variable rt : runtime.
Variable repo_root : pystr.

(** The reader returns a value computed from the entry of [results.md]
    among the files and the directories, and leaves the state as it is. *)
Lemma read_latest_report_summary_value (e : env) (k : Z) (w : world) :
  read_latest_report_summary rt repo_root e k w
  = (Val (reader_value rt repo_root e k
            (files w !! results_path repo_root)
            (bool_decide (results_path repo_root ∈ dirs w))),
     w).
Proof.
  unfold read_latest_report_summary, reader_value, bind, os_path_exists,
    path_exists.
  destruct (files w !! results_path repo_root) as [f |] eqn:Ef;
    destruct (bool_decide (results_path repo_root ∈ dirs w)) eqn:Ed;
    cbn [negb orb]; rewrite ?bool_decide_eq_true_2 by eauto;
    rewrite ?bool_decide_eq_false_2 by (intros [x Hx]; discriminate Hx);
    cbn [negb orb]; try reflexivity;
    unfold try_except, bind, py_open, f_read, ret, text_of;
    rewrite ?Ef, ?Ed;
    destruct (fault e (OpOpen (results_path repo_root) ModeR)); try reflexivity;
    destruct (fault e (OpRead (results_path repo_root)));
    rewrite ?Ef; reflexivity.
Qed.

(** X11.  [read_latest_report_summary] never raises and never changes
    anything: it returns a value and leaves every file, every directory
    and the printed lines as they were, whatever the system refuses.  The
    value is [None] exactly when [results.md] does not exist; a file that
    is there but cannot be read gives a text, not [None]. *)
Theorem read_latest_report_summary_is_read_only (e : env) (k : Z) (w : world) :
  exists o,
    read_latest_report_summary rt repo_root e k w = (Val o, w)
    /\ (o = None <-> path_exists w (results_path repo_root) = false).
Proof.
  rewrite read_latest_report_summary_value. eexists. split; [reflexivity |].
  unfold reader_value, path_exists.
  destruct (bool_decide (is_Some (files w !! results_path repo_root))
            || bool_decide (results_path repo_root ∈ dirs w)); cbn [negb].
  - split; [| intros H; discriminate H].
    destruct (fault e (OpOpen (results_path repo_root) ModeR));
      [intros H; discriminate H |].
    destruct (bool_decide (results_path repo_root ∈ dirs w));
      [intros H; discriminate H |].
    destruct (files w !! results_path repo_root); [| intros H; discriminate H].
    destruct (fault e (OpRead (results_path repo_root)));
      intros H; discriminate H.
  - split; reflexivity.
Qed.





(** X1.  Default filling.  With nothing refused by the system, a verdict
    that is an object without the members [status], [checks] and
    [artifacts] (the empty object, or one with other keys only, which are
    ignored) is ingested with success: the block appended has the status
    [UNKNOWN], an empty URL and title and no check line. *)
Theorem missing_members_default (e : env) (test_name status_json : pystr)
    (d : list (pystr * json)) (w : world) :
  io_ready repo_root None e w ->
  json_loads status_json = Some (JObj d) ->
  dict_lookup d (u "status") = None ->
  dict_lookup d (u "checks") = None ->
  dict_lookup d (u "artifacts") = None ->
  exists w',
    write_report rt repo_root e test_name status_json None w
    = (Val (ROk (results_path repo_root)), w') /\
    text_of w' (results_path repo_root)
    = text_of w (results_path repo_root)
      ++ heading test_name (u "UNKNOWN")
      ++ u "- When: " ++ strftime (now e) ++ [LF]
      ++ u "- URL: " ++ [LF]
      ++ u "- Title: " ++ [LF]
      ++ u "- Checks:" ++ [LF]
      ++ SEPARATOR.
Proof.
  intros Hio Hl Hs Hc Ha.
  assert (Hshape : well_shaped (JObj d) = true)
    by (cbn [well_shaped]; now rewrite Ha, Hc).
  destruct (block_lines_well_shaped rt test_name status_json
              (strftime (now e)) _ Hl Hshape) as (d' & Hd' & Hb).
  inversion Hd'; subst d'.
  destruct (write_report_ready rt repo_root e _ _ None w _ Hio Hb) as [w' H].
  exists w'. split; [exact H |].
  pose proof (write_report_appends rt repo_root e _ _ None w w' _
                (results_path_not_test_suites repo_root) H) as Ht.
  change (report_path repo_root None) with (results_path repo_root) in Ht.
  rewrite Ht. f_equal. unfold block_text. rewrite Hb.
  unfold verdict_lines, head_lines, heading, SEPARATOR, status_of, artifact_of,
    checks_of.
  rewrite Hs, Hc, Ha. cbn [default_of dict_lookup py_iter py_str map app concat].
  rewrite <- !app_assoc. reflexivity.
Qed.

End ReaderProperties.

(** ** The properties at work *)

Lemma default_store_io_ready :
  io_ready example_root None (quiet_env 100) empty_world.
Proof.
  apply quiet_env_io_ready, results_path_not_reports_dir.
Qed.

Lemma missing_members_default_witness :
  exists w',
    write_report example_runtime example_root (quiet_env 100) T_name
      extra_key_json None empty_world
    = (Val (ROk (results_path example_root)), w') /\
    text_of w' (results_path example_root)
    = text_of empty_world (results_path example_root)
      ++ heading T_name (u "UNKNOWN")
      ++ u "- When: " ++ strftime (now (quiet_env 100)) ++ [LF]
      ++ u "- URL: " ++ [LF]
      ++ u "- Title: " ++ [LF]
      ++ u "- Checks:" ++ [LF]
      ++ SEPARATOR.
Proof.
  apply (missing_members_default example_runtime example_root (quiet_env 100)
           T_name extra_key_json [(u "note", JInt 1)] empty_world
           default_store_io_ready).
  - vm_compute. reflexivity.
  - reflexivity.
  - reflexivity.
  - reflexivity.
Defined.



Lemma store_only_grows_witness :
  text_of (world_with (results_path example_root) (u "old text") 1)
    (results_path example_root)
  `prefix_of`
  text_of
    (snd (run_calls example_runtime example_root
            [example_call_of empty_object_json None;
             example_call_of not_json None]
            (world_with (results_path example_root) (u "old text") 1)))
    (results_path example_root).
Proof.
  apply (store_only_grows example_runtime example_root).
  apply results_path_not_test_suites.
Defined.


(** A refused write at work: with every write refused after four
    characters the call fails and the store is left with the first four
    characters of the heading. *)
Lemma refused_write_leaves_partial_block :
  fst (write_report example_runtime example_root (no_write_env 100 4) T_name
         empty_object_json None empty_world)
  = Val (RErr (u "[Errno 28] No space left on device"))
  /\ text_of
       (snd (write_report example_runtime example_root (no_write_env 100 4)
               T_name empty_object_json None empty_world))
       (results_path example_root)
     = u "## T".
Proof. split; vm_compute; reflexivity. Qed.


Lemma no_reports_dir_no_effect_witness :
  exists ex,
    write_report example_runtime example_root (readonly_env 100) T_name
      not_json None empty_world
    = (Val (RErr (exc_str example_runtime ex)), empty_world) /\
    (forall msg,
       fault (readonly_env 100) (OpMakedirs (reports_dir example_root))
       = Some msg ->
       ex = OSError msg) /\
    (fault (readonly_env 100) (OpMakedirs (reports_dir example_root)) = None ->
     ex = FileExistsError (reports_dir example_root)).
Proof.
  apply (no_reports_dir_no_effect example_runtime example_root).
  left. discriminate.
Defined.




Lemma ensure_reports_dir_example :
  ensure_reports_dir example_root (quiet_env 100) empty_world
  = (Val (reports_dir example_root),
     set_dirs empty_world ({[reports_dir example_root]} ∪ dirs empty_world)).
Proof.
  destruct (ensure_reports_dir_cases example_root (quiet_env 100) empty_world)
    as [(_ & _ & He) | (ex & _ & He)]; [exact He |].
  unfold ensure_reports_dir, bind, os_makedirs in He. simpl in He.
  rewrite lookup_empty in He. discriminate He.
Qed.

Lemma ensure_reports_dir_again_witness :
  reports_dir example_root = reports_dir example_root /\
  reports_dir example_root
  ∈ dirs (set_dirs empty_world
            ({[reports_dir example_root]} ∪ dirs empty_world)) /\
  ensure_reports_dir example_root (quiet_env 200)
    (set_dirs empty_world ({[reports_dir example_root]} ∪ dirs empty_world))
  = (Val (reports_dir example_root),
     set_dirs empty_world ({[reports_dir example_root]} ∪ dirs empty_world)).
Proof.
  apply (ensure_reports_dir_again example_root (quiet_env 100) (quiet_env 200)
           empty_world _ _ ensure_reports_dir_example).
  reflexivity.
Defined.


